(** * Anomaly detection in financial IT logs: a shallow embedding

    The two scripts of the repository (the simulated pipeline and the
    file-reading pipeline) share the same stages: feature extraction,
    anomaly detection, row-wise severity classification and alert
    generation.  A pandas DataFrame is modelled as a list of rows, a row
    being a finite map from column names to cells; the DataFrame objects
    live in a heap, since the stages update the caller's frame in place. *)

From Stdlib Require Import ZArith QArith Qround String Ascii List Sorted Lia Lqa.
From Stdlib Require Import DecimalString.
From stdpp Require Import base option list gmap strings.

Open Scope Z_scope.
Open Scope string_scope.

(** ** Exceptions and results *)

(** The exceptions that the scripts and the libraries they call raise.
    [InvalidParameterError] is the library's refusal of an estimator
    parameter.  [InsufficientDataError] is the name that the specification
    gives to a refused fit; nothing in the scripts or in the library raises
    it. *)
Inductive error :=
  | NameError
  | KeyError (k : string)
  | ValueError
  | AttributeError
  | OSError
  | UnicodeDecodeError
  | InsufficientDataError
  | InvalidParameterError.

Inductive result (A : Type) :=
  | Ok (a : A)
  | Err (e : error).
Arguments Ok {A} a.
Arguments Err {A} e.

Definition rbind {A B} (r : result A) (k : A -> result B) : result B :=
  match r with
  | Ok a => k a
  | Err e => Err e
  end.

Notation "x <~ r ; k" := (rbind r (fun x => k))
  (at level 100, r at next level, right associativity).

(** ** Cells, rows and frames *)

Record Timestamp := mkTimestamp {
  ts_year : Z; ts_month : Z; ts_day : Z;
  ts_hour : Z; ts_minute : Z; ts_second : Z
}.

Inductive cell :=
  | CStr (s : string)
  | CInt (z : Z)
  | CFloat (q : Q)
  | CTime (t : Timestamp).

Abbreviation row := (gmap string cell).
Abbreviation DataFrame := (list (gmap string cell)).

(** [row[k]]: a missing label raises [KeyError]. *)
Definition getitem (r : row) (k : string) : result cell :=
  match r !! k with
  | Some c => Ok c
  | None => Err (KeyError k)
  end.

(** [c == k] for an integer literal [k]; a string or a timestamp never
    equals a number, and a float equals it when their values agree. *)
Definition cell_eq_int (c : cell) (k : Z) : bool :=
  match c with
  | CInt z => Z.eqb z k
  | CFloat q => Qeq_bool q (inject_Z k)
  | CStr _ => false
  | CTime _ => false
  end.

(** ** Stage 6: severity classification *)

Definition Critico : string := "Crítico".
Definition Suspeito : string := "Suspeito".
Definition Normal : string := "Normal".

(** [classifica_eventos(row)].  Python's [and] evaluates its right operand
    only when the left one is true, so [row['possivel_ataque']] is read
    only after [row['anomaly']] compared equal to -1 or to 1. *)
Definition classifica_eventos (r : row) : result string :=
  a <~ getitem r "anomaly";
  c1 <~ (if cell_eq_int a (-1)
         then (p <~ getitem r "possivel_ataque"; Ok (cell_eq_int p 1))
         else Ok false);
  if c1 then Ok Critico
  else
    a' <~ getitem r "anomaly";
    c2 <~ (if cell_eq_int a' 1
           then (p <~ getitem r "possivel_ataque"; Ok (cell_eq_int p 1))
           else Ok false);
    if c2 then Ok Suspeito else Ok Normal.

(** The decision table of the severity classifier, as the specification
    words it. *)
Definition severity_table (anomaly_label attack_signal : Z) : option string :=
  match anomaly_label, attack_signal with
  | -1, 1 => Some Critico
  | 1, 1 => Some Suspeito
  | -1, 0 => Some Normal
  | 1, 0 => Some Normal
  | _, _ => None
  end.

(** ** Stage 4: feature extraction *)

(** [str.lower] on the bytes of a message: the letters A-Z are mapped to
    a-z and every other byte is kept.  (Outside ASCII Python lowers letters
    to letters outside ASCII, but for the Kelvin sign and the dotted capital
    I, which yield k and i; the keyword searched below has neither.) *)
Definition lower_ascii (c : ascii) : ascii :=
  let n := N_of_ascii c in
  if ((65 <=? n) && (n <=? 90))%N then ascii_of_N (n + 32) else c.

Fixpoint lower (s : string) : string :=
  match s with
  | EmptyString => EmptyString
  | String c s' => String (lower_ascii c) (lower s')
  end.

(** [needle in hay] on strings: substring search. *)
Fixpoint str_in (needle hay : string) : bool :=
  if String.prefix needle hay then true
  else match hay with
       | EmptyString => false
       | String _ hay' => str_in needle hay'
       end.

(** [lambda x: 1 if "ataque" in x.lower() else 0]. *)
Definition lambda_ataque (x : string) : Z :=
  if str_in "ataque" (lower x) then 1 else 0.

(** The lambda applied to a cell of the column; a cell that is no string
    has no [lower] method. *)
Definition possivel_ataque_of (x : cell) : result cell :=
  match x with
  | CStr s => Ok (CInt (lambda_ataque s))
  | _ => Err AttributeError
  end.

(** The [.dt.hour] accessor needs a datetime value. *)
Definition dt_hour (x : cell) : result cell :=
  match x with
  | CTime t => Ok (CInt (ts_hour t))
  | _ => Err AttributeError
  end.

Fixpoint mapM {A B} (f : A -> result B) (l : list A) : result (list B) :=
  match l with
  | [] => Ok []
  | a :: l' => b <~ f a; bs <~ mapM f l'; Ok (b :: bs)
  end.

(** [df[name]]: the column, one cell per row. *)
Definition get_column (name : string) (df : DataFrame) : result (list cell) :=
  mapM (fun r => getitem r name) df.

(** [df[name] = values]: the values are laid on the rows by position; a
    length different from the frame's raises [ValueError]. *)
Definition set_column (name : string) (values : list cell) (df : DataFrame)
  : result DataFrame :=
  if Nat.eqb (length values) (length df)
  then Ok (zip_with (fun r v => <[name := v]> r) df values)
  else Err ValueError.

(** ** The heap of frames and the console *)

Inductive fragment :=
  | Lit (s : string)
  | Val (c : cell).

Abbreviation line := (list fragment).

(** [heap]: the DataFrame objects, by reference.  [stdout]: the lines
    printed by the alert generation, formatted strings being kept as their
    literal pieces and interpolated values (the progress messages of the
    other stages are not recorded). *)
Record state := mkState {
  heap : gmap nat DataFrame;
  stdout : list line
}.

Definition M (A : Type) : Type := state -> result A * state.

Definition ret {A} (a : A) : M A := fun st => (Ok a, st).

Definition bind {A B} (m : M A) (k : A -> M B) : M B :=
  fun st =>
    match m st with
    | (Ok a, st') => k a st'
    | (Err e, st') => (Err e, st')
    end.

Notation "x <- m ;; k" := (bind m (fun x => k))
  (at level 100, m at next level, right associativity).

Definition lift {A} (r : result A) : M A := fun st => (r, st).

Definition read_frame (df : nat) : M DataFrame :=
  fun st =>
    match heap st !! df with
    | Some d => (Ok d, st)
    | None => (Err NameError, st)
    end.

Definition write_frame (df : nat) (d : DataFrame) : M unit :=
  fun st => (Ok tt, mkState (<[df := d]> (heap st)) (stdout st)).

Definition print (l : line) : M unit :=
  fun st => (Ok tt, mkState (heap st) (stdout st ++ [l])).

(** [df[name] = values] on the frame object that [df] refers to. *)
Definition assign_column (df : nat) (name : string) (values : list cell) : M unit :=
  d <- read_frame df ;;
  d' <- lift (set_column name values d) ;;
  write_frame df d'.

(** [extrai_features(df)]: adds the two feature columns to the frame it is
    given and returns that same frame. *)
Definition extrai_features (df : nat) : M nat :=
  d <- read_frame df ;;
  flags <- lift (msgs <~ get_column "mensagem" d; mapM possivel_ataque_of msgs) ;;
  _ <- assign_column df "possivel_ataque" flags ;;
  d1 <- read_frame df ;;
  horas <- lift (tss <~ get_column "timestamp" d1; mapM dt_hour tss) ;;
  _ <- assign_column df "hora" horas ;;
  ret df.

(** ** Stage 2: the context configuration *)

#[warnings="-register-all"]
Inductive json :=
  | JNull
  | JBool (b : bool)
  | JNum (q : Q)
  | JStr (s : string)
  | JArr (l : list json)
  | JObj (m : gmap string json).

(** What [os.path.exists], [open] and [json.load] find at the configuration
    path: no file; a file that cannot be opened or read, with the exception
    [e] of the attempt ([UnicodeDecodeError] for bytes that are not UTF-8
    text, [OSError] for a directory or a file without read permission); a
    file whose text [json.load] rejects with [JSONDecodeError]; or a file
    that decodes to a JSON value. *)
Inductive config_file :=
  | NoFile
  | Unreadable (e : error)
  | BadJson
  | Json (j : json).

(** [ler_config_contexto]: the decoded value, or the empty dictionary when
    the file is missing or [json.load] raises [JSONDecodeError].  The
    [except] clause names that exception only: any other exception of the
    reading leaves the function. *)
Definition ler_config_contexto (f : config_file) : result json :=
  match f with
  | Json config => Ok config
  | BadJson => Ok (JObj ∅)
  | Unreadable e => Err e
  | NoFile => Ok (JObj ∅)
  end.

(** [config.get(k, d)]: only a dictionary has the method. *)
Definition dict_get (config : json) (k : string) (d : json) : result json :=
  match config with
  | JObj m => Ok (default d (m !! k))
  | _ => Err AttributeError
  end.

Definition default_contamination : json := JNum (1 # 10).

(** ** Stage 5: the isolation forest *)

Abbreviation FeatureVector := (Z * Z)%type.

(** The scripts take the isolation forest from an external library.  Its
    randomized partition trees are kept abstract: [build_trees] is their
    construction from the batch for a number of trees and a seed, and
    [path_score] the anomaly score that they give to one vector (the
    normalized isolation score, higher for a vector that fewer partitions
    isolate). *)
Record IsolationEnsemble := mkEnsemble {
  ensemble : Type;
  build_trees : nat -> Z -> list FeatureVector -> ensemble;
  path_score : ensemble -> FeatureVector -> Q
}.

(** [IsolationForest(n_estimators=..., contamination=..., random_state=...)]:
    the constructor stores its arguments as they come. *)
Record IsolationForest := mkIsolationForest {
  n_estimators : nat;
  contamination : json;
  random_state : Z
}.

(** The contamination that the library accepts: the text [auto], or a real
    number greater than 0 and at most 1/2. *)
Inductive Contamination :=
  | Auto
  | Fraction (c : Q).

Definition check_contamination (v : json) : result Contamination :=
  match v with
  | JStr s => if String.eqb s "auto" then Ok Auto else Err InvalidParameterError
  | JNum q =>
      if Qlt_le_dec 0 q then
        if Qlt_le_dec (1 # 2) q then Err InvalidParameterError
        else Ok (Fraction q)
      else Err InvalidParameterError
  | _ => Err InvalidParameterError
  end.

(** The check of the stored parameters, which opens [fit]: a valid
    contamination, at least one tree, a seed of 32 bits. *)
Definition validate_params (modelo : IsolationForest) : result Contamination :=
  c <~ check_contamination (contamination modelo);
  if (n_estimators modelo =? 0)%nat then Err InvalidParameterError
  else if (0 <=? random_state modelo)%Z && (random_state modelo <? 2 ^ 32)%Z
       then Ok c
       else Err InvalidParameterError.

(** [score_samples]: the library's score of a vector is the opposite of its
    anomaly score: the lower, the more abnormal. *)
Definition score_samples (E : IsolationEnsemble) (trees : ensemble E)
    (x : FeatureVector) : Q :=
  (- path_score E trees x)%Q.

(** The scores in ascending order, for the order statistics of the
    percentile. *)
Fixpoint insert_sorted (x : Q) (l : list Q) : list Q :=
  match l with
  | [] => [x]
  | y :: l' => if Qle_bool x y then x :: l else y :: insert_sorted x l'
  end.

Definition sort_scores (l : list Q) : list Q := foldr insert_sorted [] l.

(** [np.percentile(scores, 100 * q)]: the q-quantile of the scores; between
    two order statistics it interpolates linearly. *)
Definition quantile (q : Q) (scores : list Q) : Q :=
  let s := sort_scores scores in
  let n := Z.of_nat (length s) in
  let h := (inject_Z (n - 1) * q)%Q in
  let lo := Qfloor h in
  let hi := Z.min (lo + 1) (n - 1) in
  let frac := (h - inject_Z lo)%Q in
  let a := nth (Z.to_nat lo) s 0%Q in
  let b := nth (Z.to_nat hi) s 0%Q in
  (a + frac * (b - a))%Q.

(** The offset of the decision function: -1/2 for [auto], otherwise the
    percentile of the training scores that the contamination names. *)
Definition offset_de (E : IsolationEnsemble) (c : Contamination)
    (trees : ensemble E) (X : list FeatureVector) : Q :=
  match c with
  | Auto => (- (1 # 2))%Q
  | Fraction q => quantile q (map (score_samples E trees) X)
  end.

(** The estimator once fitted: its trees and its offset. *)
Record FittedForest (E : IsolationEnsemble) := mkFitted {
  estimators_ : ensemble E;
  offset_ : Q
}.
Arguments mkFitted {E} _ _.
Arguments estimators_ {E} _.
Arguments offset_ {E} _.

(** [modelo_if.fit(X)]: the parameters are checked first; a batch without
    any sample is then refused with [ValueError]; otherwise the trees are
    built and the offset is set from them. *)
Definition fit (E : IsolationEnsemble) (modelo : IsolationForest)
    (X : list FeatureVector) : result (FittedForest E) :=
  c <~ validate_params modelo;
  match X with
  | [] => Err ValueError
  | _ :: _ =>
      let trees := build_trees E (n_estimators modelo) (random_state modelo) X in
      Ok (mkFitted trees (offset_de E c trees X))
  end.

(** [modelo_if.decision_function(X)]: the score of every vector, less the
    offset. *)
Definition decision_function (E : IsolationEnsemble) (modelo : FittedForest E)
    (X : list FeatureVector) : list Q :=
  map (fun x => (score_samples E (estimators_ modelo) x - offset_ modelo)%Q) X.

(** The label of a decision value: -1 when it is negative, 1 otherwise. *)
Definition is_inlier (d : Q) : Z :=
  if Qlt_le_dec d 0 then -1 else 1.

(** [modelo_if.predict(X)]. *)
Definition predict (E : IsolationEnsemble) (modelo : FittedForest E)
    (X : list FeatureVector) : list Z :=
  map is_inlier (decision_function E modelo X).



Fixpoint count_eq (t : Q) (l : list Q) : nat :=
  match l with
  | [] => 0
  | x :: l' => (if Qeq_bool x t then 1 else 0) + count_eq t l'
  end.


Definition as_int (c : cell) : result Z :=
  match c with
  | CInt z => Ok z
  | _ => Err ValueError
  end.

(** [df[['hora', 'possivel_ataque']]] as the feature matrix. *)
Definition select_features (d : DataFrame) : result (list FeatureVector) :=
  mapM (fun r =>
          h <~ getitem r "hora";
          p <~ getitem r "possivel_ataque";
          hz <~ as_int h;
          pz <~ as_int p;
          Ok (hz, pz)) d.

(** The detection block shared by the two scripts: the estimator is
    constructed and fitted on the features, then the column of decision
    values and the column of labels are assigned in turn. *)
Definition deteccao (E : IsolationEnsemble) (df : nat)
    (features : list FeatureVector) (contamination : json) : M unit :=
  let modelo_if := mkIsolationForest 100 contamination 42 in
  modelo_if <- lift (fit E modelo_if features) ;;
  _ <- assign_column df "anomaly_score"
         (map CFloat (decision_function E modelo_if features)) ;;
  assign_column df "anomaly" (map CInt (predict E modelo_if features)).

(** [detectar_anomalias(df, config)]. *)
Definition detectar_anomalias (E : IsolationEnsemble) (df : nat) (config : json)
  : M nat :=
  d <- read_frame df ;;
  features <- lift (select_features d) ;;
  contamination <- lift (dict_get config "contamination" default_contamination) ;;
  _ <- deteccao E df features contamination ;;
  ret df.

(** ** Stage 7: alerts *)

Definition cell_eq_str (c : cell) (k : string) : bool :=
  match c with
  | CStr s => String.eqb s k
  | _ => false
  end.

(** [df[mask]]: the rows whose mask entry is true, in order. *)
Fixpoint select_rows (d : DataFrame) (mask : list bool) : DataFrame :=
  match d, mask with
  | r :: d', b :: mask' =>
      if b then r :: select_rows d' mask' else select_rows d' mask'
  | _, _ => []
  end.

(** The formatted alert of one event. *)
Definition alerta (evento : row) : result line :=
  ts <~ getitem evento "timestamp";
  ip <~ getitem evento "ip";
  nivel <~ getitem evento "nivel";
  mensagem <~ getitem evento "mensagem";
  Ok [Lit "ALERTA CRÍTICO: "; Val ts; Lit " | IP: "; Val ip;
      Lit " | Nível: "; Val nivel; Lit " | Mensagem: "; Val mensagem].

Fixpoint for_each {A} (l : list A) (body : A -> M unit) : M unit :=
  match l with
  | [] => ret tt
  | a :: l' => _ <- body a ;; for_each l' body
  end.

(** [gerar_alertas(df)]. *)
Definition gerar_alertas (df : nat) : M unit :=
  d <- read_frame df ;;
  classes <- lift (get_column "classificacao" d) ;;
  let eventos_criticos :=
    select_rows d (map (fun c => cell_eq_str c Critico) classes) in
  for_each eventos_criticos
    (fun evento => a <- lift (alerta evento) ;; print a).

(** ** The pipelines *)

(** [df['classificacao'] = df.apply(classifica_eventos, axis=1)]. *)
Definition classifica (df : nat) : M unit :=
  d <- read_frame df ;;
  classes <- lift (mapM classifica_eventos d) ;;
  assign_column df "classificacao" (map CStr classes).

(** The stages that the file-reading script runs on the ingested frame,
    up to the alerts (the charts that follow are presentation). *)
Definition etapas (E : IsolationEnsemble) (config : json) (df_logs : nat)
  : M unit :=
  df_logs <- extrai_features df_logs ;;
  df_logs <- detectar_anomalias E df_logs config ;;
  _ <- classifica df_logs ;;
  gerar_alertas df_logs.

(** The file-reading script on a frame already ingested: the configuration
    is read, then the stages run. *)
Definition pipeline_ler_arquivo (E : IsolationEnsemble) (f : config_file)
    (df_logs : nat) : M unit :=
  config <- lift (ler_config_contexto f) ;;
  etapas E config df_logs.

(** The simulated-logs script, from the ingested frame to the alerts; its
    contamination is the literal 0.1. *)
Definition pipeline_simulado (E : IsolationEnsemble) (df_logs : nat) : M unit :=
  df_logs <- extrai_features df_logs ;;
  d <- read_frame df_logs ;;
  features <- lift (select_features d) ;;
  _ <- deteccao E df_logs features (JNum (1 # 10)) ;;
  _ <- classifica df_logs ;;
  gerar_alertas df_logs.

(** ** Events and the frames they are ingested into *)

Record Event := mkEvent {
  timestamp : Timestamp;
  source_ip : string;
  level : string;
  message : string
}.

(** The dictionary that the ingestion builds for one log line, its
    timestamp converted. *)
Definition row_of_event (e : Event) : row :=
  {[ "timestamp" := CTime (timestamp e); "ip" := CStr (source_ip e);
     "nivel" := CStr (level e); "mensagem" := CStr (message e) ]}.

Definition frame_of_events (events : list Event) : DataFrame :=
  map row_of_event events.

(** The row of an event once its two features are extracted. *)
Definition featured_row (e : Event) : row :=
  <[ "hora" := CInt (ts_hour (timestamp e)) ]>
    (<[ "possivel_ataque" := CInt (lambda_ataque (message e)) ]>
       (row_of_event e)).

(** A classified event, and the row that holds it once the detection and
    the classification have added their columns; its score is the decision
    value stored in the column [anomaly_score]. *)
Record ClassifiedEvent := mkClassified {
  event : Event;
  isolation_score : Q;
  anomaly_label : Z;
  severity : string
}.

Definition classified_row (ce : ClassifiedEvent) : row :=
  <[ "classificacao" := CStr (severity ce) ]>
    (<[ "anomaly" := CInt (anomaly_label ce) ]>
       (<[ "anomaly_score" := CFloat (isolation_score ce) ]>
          (featured_row (event ce)))).

(** The feature vector of an event. *)
Definition feature_of (e : Event) : FeatureVector :=
  (ts_hour (timestamp e), lambda_ataque (message e)).

(** The tier of a label and a flag, by the two tests of the classifier. *)
Definition tier (label flag : Z) : string :=
  if Z.eqb label (-1) && Z.eqb flag 1 then Critico
  else if Z.eqb label 1 && Z.eqb flag 1 then Suspeito
  else Normal.

(** The classified events of a batch: every event with its own decision
    value under the trees built on the batch and the offset set from them,
    the label of that value, and its tier. *)
Definition classified_events (E : IsolationEnsemble) (c : Contamination)
    (events : list Event) : list ClassifiedEvent :=
  let features := map feature_of events in
  let trees := build_trees E 100 42 features in
  let offset := offset_de E c trees features in
  map (fun e =>
         let d := (score_samples E trees (feature_of e) - offset)%Q in
         let lab := is_inlier d in
         mkClassified e d lab (tier lab (lambda_ataque (message e))))
      events.

(** The alert of an event: its four fields between the literal pieces of
    the message. *)
Definition alert_of (e : Event) : line :=
  [Lit "ALERTA CRÍTICO: "; Val (CTime (timestamp e));
   Lit " | IP: "; Val (CStr (source_ip e));
   Lit " | Nível: "; Val (CStr (level e));
   Lit " | Mensagem: "; Val (CStr (message e))].

(** The state in which a run of either pipeline ends. *)
Definition final_state (E : IsolationEnsemble) (c : Contamination) (df : nat)
    (events : list Event) (st : state) : state :=
  mkState
    (<[df := map classified_row (classified_events E c events)]> (heap st))
    (stdout st ++
     map (fun ce => alert_of (event ce))
       (filter (fun ce => severity ce = Critico) (classified_events E c events))).

(** Index alignment of a classified batch with the events it comes from:
    the estimator is fitted on the features of the batch, there are as many
    records as events, and the record at each index holds the event of that
    index, with the feature vector, the decision value, the label and the
    tier found at that index of the batch. *)
Definition aligned (E : IsolationEnsemble) (contamination : json)
    (events : list Event) (out : list ClassifiedEvent) : Prop :=
  let features := map feature_of events in
  exists modelo_if : FittedForest E,
    fit E (mkIsolationForest 100 contamination 42) features = Ok modelo_if /\
    length out = length events /\
    forall (i : nat) (e : Event), events !! i = Some e ->
      exists ce : ClassifiedEvent,
        out !! i = Some ce
        /\ event ce = e
        /\ features !! i = Some (ts_hour (timestamp e), lambda_ataque (message e))
        /\ decision_function E modelo_if features !! i
           = Some (isolation_score ce)
        /\ predict E modelo_if features !! i = Some (anomaly_label ce)
        /\ classifica_eventos (classified_row ce) = Ok (severity ce)
        /\ severity ce = tier (anomaly_label ce) (lambda_ataque (message e)).

(** A message contains a keyword as a case-insensitive substring when some
    substring of it equals the keyword up to letter case. *)
Definition contains_ci (keyword msg : string) : Prop :=
  exists pre w suf,
    msg = (pre ++ w ++ suf)%string /\ lower w = lower keyword.

(** The pairs of the decision table, read on cells. *)
Definition in_table (a s : cell) : bool :=
  (cell_eq_int a (-1) || cell_eq_int a 1) &&
  (cell_eq_int s 0 || cell_eq_int s 1).

(** ** Stage 3: ingestion of the log lines *)

(** The ASCII characters that [str.isspace] accepts: tab to carriage
    return, the four separators 28 to 31, and the space. *)
Definition ascii_space (n : N) : bool :=
  (((9 <=? n) && (n <=? 13)) || ((28 <=? n) && (n <=? 32)))%N.

(** One whitespace character at the head of a text held as UTF-8 bytes, and
    the bytes after it.  Outside ASCII the whitespace characters are U+0085,
    U+00A0, U+1680, U+2000 to U+200A, U+2028, U+2029, U+202F, U+205F and
    U+3000. *)
Definition ws_head (s : list ascii) : option (list ascii) :=
  match s with
  | [] => None
  | c1 :: r1 =>
      let n1 := N_of_ascii c1 in
      if ascii_space n1 then Some r1
      else
        match r1 with
        | [] => None
        | c2 :: r2 =>
            let n2 := N_of_ascii c2 in
            if ((n1 =? 194) && ((n2 =? 133) || (n2 =? 160)))%N then Some r2
            else
              match r2 with
              | [] => None
              | c3 :: r3 =>
                  let n3 := N_of_ascii c3 in
                  if (((n1 =? 225) && (n2 =? 154) && (n3 =? 128))
                      || ((n1 =? 226) && (n2 =? 128) &&
                          (((128 <=? n3) && (n3 <=? 138)) || (n3 =? 168)
                           || (n3 =? 169) || (n3 =? 175)))
                      || ((n1 =? 226) && (n2 =? 129) && (n3 =? 159))
                      || ((n1 =? 227) && (n2 =? 128) && (n3 =? 128)))%N
                  then Some r3
                  else None
              end
        end
  end.

(** The same at the end of a text, read on the reversed bytes. *)
Definition ws_last (s : list ascii) : option (list ascii) :=
  match s with
  | [] => None
  | c1 :: r1 =>
      let n1 := N_of_ascii c1 in
      if ascii_space n1 then Some r1
      else
        match r1 with
        | [] => None
        | c2 :: r2 =>
            let n2 := N_of_ascii c2 in
            if ((n2 =? 194) && ((n1 =? 133) || (n1 =? 160)))%N then Some r2
            else
              match r2 with
              | [] => None
              | c3 :: r3 =>
                  let n3 := N_of_ascii c3 in
                  if (((n3 =? 225) && (n2 =? 154) && (n1 =? 128))
                      || ((n3 =? 226) && (n2 =? 128) &&
                          (((128 <=? n1) && (n1 <=? 138)) || (n1 =? 168)
                           || (n1 =? 169) || (n1 =? 175)))
                      || ((n3 =? 226) && (n2 =? 129) && (n1 =? 159))
                      || ((n3 =? 227) && (n2 =? 128) && (n1 =? 128)))%N
                  then Some r3
                  else None
              end
        end
  end.

(** Dropping whitespace characters while there is one in front; the
    counter bounds the number of characters dropped by the length. *)
Fixpoint drop_ws (step : list ascii -> option (list ascii)) (fuel : nat)
    (s : list ascii) : list ascii :=
  match fuel with
  | O => s
  | S fuel' =>
      match step s with
      | Some r => drop_ws step fuel' r
      | None => s
      end
  end.

(** [str.strip()]: whitespace dropped at both ends. *)
Definition strip (s : string) : string :=
  let l := list_ascii_of_string s in
  let l1 := drop_ws ws_head (length l) l in
  let l2 := rev (drop_ws ws_last (length l1) (rev l1)) in
  string_of_list_ascii l2.

Definition newline : ascii := ascii_of_N 10.

(** The pieces of the pattern, as the backtracking matcher runs them; [k]
    is what remains of the pattern.  A literal text: *)
Fixpoint lit {R} (p : string) (k : string -> option R) (s : string) : option R :=
  match p with
  | EmptyString => k s
  | String c p' =>
      match s with
      | EmptyString => None
      | String c' s' => if Ascii.eqb c c' then lit p' k s' else None
      end
  end.

(** A lazy dot-star group: the shortest text first, then one more character
    at a time; a dot does not match a newline. *)
Fixpoint lazy_group {R} (k : string -> option R) (s : string)
  : option (string * R) :=
  match k s with
  | Some r => Some (EmptyString, r)
  | None =>
      match s with
      | EmptyString => None
      | String c s' =>
          if Ascii.eqb c newline then None
          else match lazy_group k s' with
               | Some (g, r) => Some (String c g, r)
               | None => None
               end
      end
  end.

(** The last group, a greedy dot-star: the longest text first. *)
Fixpoint greedy_group {R} (k : string -> option R) (s : string)
  : option (string * R) :=
  match s with
  | EmptyString => option_map (fun r => (EmptyString, r)) (k s)
  | String c s' =>
      if Ascii.eqb c newline then option_map (fun r => (EmptyString, r)) (k s)
      else match greedy_group k s' with
           | Some (g, r) => Some (String c g, r)
           | None => option_map (fun r => (EmptyString, r)) (k s)
           end
  end.

(** [$]: the end of the text, or the place before a last newline. *)
Definition eos (s : string) : option unit :=
  match s with
  | EmptyString => Some tt
  | String c EmptyString => if Ascii.eqb c newline then Some tt else None
  | _ => None
  end.

Definition sep : string := " | ".

(** [re.match(padrao, linha)] and [match.groups()]: the pattern is three
    lazy groups, each followed by the separator, then a greedy group up to
    the end. *)
Definition padrao_match (linha : string)
  : option (string * string * string * string) :=
  match lazy_group (lit sep (lazy_group (lit sep (lazy_group (lit sep
          (greedy_group eos)))))) linha with
  | Some (ts, (ip, (nivel, (mensagem, _)))) => Some (ts, ip, nivel, mensagem)
  | None => None
  end.

(** The dictionary appended to [data] for a matched line. *)
Definition linha_dict (campos : string * string * string * string) : row :=
  let '(ts, ip, nivel, mensagem) := campos in
  {[ "timestamp" := CStr ts; "ip" := CStr ip;
     "nivel" := CStr nivel; "mensagem" := CStr mensagem ]}.

(** The loop over the lines of the file: a stripped line that matches adds
    its dictionary, another line adds nothing. *)
Fixpoint coleta (linhas : list string) : DataFrame :=
  match linhas with
  | [] => []
  | linha :: linhas' =>
      match padrao_match (strip linha) with
      | Some campos => linha_dict campos :: coleta linhas'
      | None => coleta linhas'
      end
  end.

(** [pd.to_datetime(column, format="%Y-%m-%d %H:%M:%S")]; [strptime] is the
    library's reading of one text in that format, and a text it refuses
    raises [ValueError]. *)
Definition to_datetime (strptime : string -> option Timestamp)
    (column : list cell) : result (list cell) :=
  mapM (fun c =>
          match c with
          | CStr s =>
              match strptime s with
              | Some t => Ok (CTime t)
              | None => Err ValueError
              end
          | CTime t => Ok (CTime t)
          | _ => Err ValueError
          end) column.

(** A new frame object, at a reference not yet in use. *)
Definition alloc_frame (d : DataFrame) : M nat :=
  fun st =>
    let df := fresh (dom (heap st)) in
    (Ok df, mkState (<[df := d]> (heap st)) (stdout st)).

(** [ingestao_logs(file_path)] on the lines of an existing file.  A frame
    built from an empty list has no column, so its [timestamp] column is a
    [KeyError]; the frame enters the heap when it is returned. *)
Definition ingestao_logs (strptime : string -> option Timestamp)
    (linhas : list string) : M nat :=
  let data := coleta linhas in
  match data with
  | [] => lift (Err (KeyError "timestamp"))
  | _ =>
      column <- lift (get_column "timestamp" data) ;;
      tss <- lift (to_datetime strptime column) ;;
      d <- lift (set_column "timestamp" tss data) ;;
      alloc_frame d
  end.

(** The main block of the file-reading script: the configuration is read
    first; the log file is then either missing, which the
    [except FileNotFoundError] clause absorbs, or read line by line; any
    other exception leaves the block. *)
Definition main_ler_arquivo (E : IsolationEnsemble)
    (strptime : string -> option Timestamp) (f : config_file)
    (log : option (list string)) : M unit :=
  config <- lift (ler_config_contexto f) ;;
  match log with
  | None => ret tt
  | Some linhas =>
      df_logs <- ingestao_logs strptime linhas ;;
      etapas E config df_logs
  end.

(** ** Stage 2 of the simulated script: the generator *)

Inductive Nivel := INFO | WARN | ERROR.

Inductive Mensagem :=
  | AcessoPermitido
  | AcessoNegado
  | TransacaoRealizada
  | FalhaAutenticacao
  | TentativaInvasao.

Definition nivel_str (n : Nivel) : string :=
  match n with
  | INFO => "INFO"
  | WARN => "WARN"
  | ERROR => "ERROR"
  end.

Definition mensagem_str (m : Mensagem) : string :=
  match m with
  | AcessoPermitido => "Acesso permitido"
  | AcessoNegado => "Acesso negado"
  | TransacaoRealizada => "Transação realizada"
  | FalhaAutenticacao => "Falha de autenticação"
  | TentativaInvasao => "Tentativa de invasão"
  end.

(** What one turn of the generator's loop draws: the formatted instant
    (a library rendering of the base time plus a random number of seconds),
    the four numbers of the address, the level and the message. *)
Record Sorteio := mkSorteio {
  s_ts_str : string;
  s_ip : Z * Z * Z * Z;
  s_nivel : Nivel;
  s_mensagem : Mensagem
}.

(** [str(n)] for an integer. *)
Definition str_int (z : Z) : string := NilZero.string_of_int (Z.to_int z).

Definition ip_str (ip : Z * Z * Z * Z) : string :=
  let '(a, b, c, d) := ip in
  (str_int a ++ "." ++ str_int b ++ "." ++ str_int c ++ "." ++ str_int d)%string.

(** The message of a line: an ERROR line gets the attack suffix. *)
Definition mensagem_final (n : Nivel) (m : Mensagem) : string :=
  match n with
  | ERROR => (mensagem_str m ++ " - Possível ataque detectado")%string
  | _ => mensagem_str m
  end.

Definition log_line (s : Sorteio) : string :=
  (s_ts_str s ++ sep ++ ip_str (s_ip s) ++ sep ++ nivel_str (s_nivel s)
   ++ sep ++ mensagem_final (s_nivel s) (s_mensagem s))%string.

(** [simula_logs(n)], the draws of its [n] turns being given. *)
Definition simula_logs (sorteios : list Sorteio) : list string :=
  map log_line sorteios.

(** The lines of the file that the script writes: one per log, ended by a
    newline. *)
Definition arquivo_simulado (logs : list string) : list string :=
  map (fun linha => (linha ++ String newline "")%string) logs.

(** The simulated script from the generation on. *)
Definition main_simulado (E : IsolationEnsemble)
    (strptime : string -> option Timestamp) (sorteios : list Sorteio) : M unit :=
  let logs_simulados := simula_logs sorteios in
  df_logs <- ingestao_logs strptime (arquivo_simulado logs_simulados) ;;
  pipeline_simulado E df_logs.

(** A field that can stand before a separator: no bar and no newline. *)
Fixpoint campo_simples (s : string) : bool :=
  match s with
  | EmptyString => true
  | String c s' =>
      negb (Ascii.eqb c "|") && negb (Ascii.eqb c newline) && campo_simples s'
  end.

(** A text without newline. *)
Fixpoint sem_newline (s : string) : bool :=
  match s with
  | EmptyString => true
  | String c s' => negb (Ascii.eqb c newline) && sem_newline s'
  end.

(** The four fields joined by the separator. *)
Definition junta (campos : string * string * string * string) : string :=
  let '(ts, ip, nivel, mensagem) := campos in
  (ts ++ sep ++ ip ++ sep ++ nivel ++ sep ++ mensagem)%string.

(** A byte that is an ASCII character other than whitespace. *)
Definition plain (c : ascii) : bool :=
  (N_of_ascii c <? 128)%N && negb (ascii_space (N_of_ascii c)).

(** A text that begins, or ends, with such a character. *)
Definition inicio_simples (s : string) : bool :=
  match list_ascii_of_string s with
  | c :: _ => plain c
  | [] => false
  end.

Definition fim_simples (s : string) : bool :=
  match rev (list_ascii_of_string s) with
  | c :: _ => plain c
  | [] => false
  end.

(** A text made of ASCII whitespace only. *)
Definition so_espacos (s : string) : bool :=
  forallb (fun c => ascii_space (N_of_ascii c)) (list_ascii_of_string s).

(** The groups of the lines that match, in the order of the file. *)
Definition campos_linhas (linhas : list string)
  : list (string * string * string * string) :=
  omap (fun linha => padrao_match (strip linha)) linhas.

(** The event of a matched line, when its timestamp is read. *)
Definition evento_de (strptime : string -> option Timestamp)
    (campos : string * string * string * string) : option Event :=
  let '(ts, ip, nivel, mensagem) := campos in
  match strptime ts with
  | Some t => Some (mkEvent t ip nivel mensagem)
  | None => None
  end.

(** The number of bars followed by a space in a text. *)
Fixpoint conta_barras (s : string) : nat :=
  match s with
  | EmptyString => 0
  | String c s' =>
      (if Ascii.eqb c "|"
       then match s' with
            | String c2 _ => if Ascii.eqb c2 " " then 1 else 0
            | EmptyString => 0
            end
       else 0) + conta_barras s'
  end.

(** The draws the generator can make: the formatted instant begins with a
    plain character and holds neither bar nor newline (it is made of digits,
    dashes, colons and one space), and each number of the address lies
    between 1 and 254. *)
Definition octeto_valido (z : Z) : bool := ((1 <=? z) && (z <? 255))%Z.

Definition sorteio_valido (s : Sorteio) : bool :=
  let '(a, b, c, d) := s_ip s in
  campo_simples (s_ts_str s) && inicio_simples (s_ts_str s)
  && octeto_valido a && octeto_valido b && octeto_valido c && octeto_valido d.

(** The four fields that a generated line is written from. *)
Definition campos_sorteio (s : Sorteio) : string * string * string * string :=
  (s_ts_str s, ip_str (s_ip s), nivel_str (s_nivel s),
   mensagem_final (s_nivel s) (s_mensagem s)).

(** A row with the flag column that the extractor computes from its
    message, and with the hour column it computes from its timestamp; a row
    without a text message, or without a datetime, is left as it is. *)
Definition com_flag (r : row) : row :=
  match r !! "mensagem" with
  | Some (CStr m) => <[ "possivel_ataque" := CInt (lambda_ataque m) ]> r
  | _ => r
  end.

Definition com_hora (r : row) : row :=
  match r !! "timestamp" with
  | Some (CTime t) => <[ "hora" := CInt (ts_hour t) ]> r
  | _ => r
  end.

(** Rows that hold a text message, and rows that hold a datetime. *)
Definition tem_mensagem (r : row) : Prop :=
  exists m, r !! "mensagem" = Some (CStr m).

Definition tem_timestamp (r : row) : Prop :=
  exists t, r !! "timestamp" = Some (CTime t).

(** Sample events. *)
Definition ts_exemplo : Timestamp := mkTimestamp 2025 3 14 3 15 9.

Definition ev_attack : Event :=
  mkEvent ts_exemplo "10.0.0.7" "ERROR" "Brute-force ATTACK detected".

Definition ev_ataque : Event :=
  mkEvent ts_exemplo "10.0.0.8" "ERROR" "Acesso negado - Ataque detectado".

Definition ev_normal : Event :=
  mkEvent (mkTimestamp 2025 3 14 9 0 0) "10.0.0.9" "INFO" "Acesso permitido".

(** A sample ensemble: the model is the batch itself and a vector scores
    the inverse of the number of vectors of the batch equal to it. *)
Definition sample_ensemble : IsolationEnsemble :=
  mkEnsemble (list FeatureVector)
    (fun _ _ vectors => vectors)
    (fun model v =>
       1 # Pos.of_nat (length (filter (fun w => w = v) model))).


Definition sample_events : list Event := [ev_normal; ev_normal; ev_ataque].

Definition sample_state : state :=
  mkState {[ 0%nat := frame_of_events sample_events ]} [].

(** A sample reading of timestamps, which knows two instants. *)
Definition sample_strptime (s : string) : option Timestamp :=
  if String.eqb s "2025-03-14 03:15:09" then Some ts_exemplo
  else if String.eqb s "2025-03-14 09:00:00"
       then Some (mkTimestamp 2025 3 14 9 0 0)
       else None.

Definition sample_linhas : list string :=
  [("2025-03-14 09:00:00 | 10.0.0.9 | INFO | Acesso permitido"
      ++ String newline "")%string;
   ("linha sem campos" ++ String newline "")%string;
   ("2025-03-14 03:15:09 | 10.0.0.8 | ERROR | Acesso negado - Ataque detectado"
      ++ String newline "")%string].

(** A frame with a message column but no timestamp column, and one with
    the columns of a classified batch that carries no attack signal. *)
Definition sample_sem_timestamp : DataFrame :=
  [ {[ "mensagem" := CStr "Tentativa de ataque" ]};
    {[ "mensagem" := CStr "Acesso permitido" ]} ].

Definition sample_sem_sinal : DataFrame :=
  [ <[ "anomaly" := CInt (-1) ]> (featured_row ev_normal);
    <[ "anomaly" := CInt 1 ]> (featured_row ev_normal) ].

(** * Properties *)

(** ** The severity classifier *)

Lemma getitem_Some (r : row) k c : r !! k = Some c -> getitem r k = Ok c.
Proof. intros H. unfold getitem. now rewrite H. Qed.

Lemma classifica_eventos_cells (r : row) (a s : cell) :
  r !! "anomaly" = Some a ->
  r !! "possivel_ataque" = Some s ->
  classifica_eventos r =
    Ok (if cell_eq_int a (-1) && cell_eq_int s 1 then Critico
        else if cell_eq_int a 1 && cell_eq_int s 1 then Suspeito
        else Normal).
Proof.
  intros Ha Hs. unfold classifica_eventos.
  rewrite (getitem_Some _ _ _ Ha), (getitem_Some _ _ _ Hs). simpl.
  destruct (cell_eq_int a (-1)); simpl.
  - destruct (cell_eq_int s 1); simpl; [reflexivity|].
    destruct (cell_eq_int a 1); reflexivity.
  - destruct (cell_eq_int a 1); simpl; [|reflexivity].
    destruct (cell_eq_int s 1); reflexivity.
Qed.

Lemma classifica_eventos_range (r : row) (tier : string) :
  classifica_eventos r = Ok tier ->
  tier = Normal \/ tier = Suspeito \/ tier = Critico.
Proof.
  unfold classifica_eventos, getitem.
  destruct (r !! "anomaly") as [a|]; simpl; [|discriminate].
  destruct (r !! "possivel_ataque") as [s|]; simpl;
    destruct (cell_eq_int a (-1)); simpl;
    try destruct (cell_eq_int s 1); simpl;
    destruct (cell_eq_int a 1); simpl;
    intros H; inversion H; auto.
Qed.

Lemma classifica_eventos_ext (r r' : row) :
  r !! "anomaly" = r' !! "anomaly" ->
  r !! "possivel_ataque" = r' !! "possivel_ataque" ->
  classifica_eventos r = classifica_eventos r'.
Proof.
  intros Ha Hs. unfold classifica_eventos, getitem. now rewrite Ha, Hs.
Qed.

(** C1. On the four pairs of labels in {-1,+1} x {0,1} the classifier
    returns the tier of the decision table: Critical for (-1,1), Suspicious
    for (+1,1), Normal for (-1,0) and (+1,0).  It reads only the two columns
    [anomaly] and [possivel_ataque], and whatever the row it never returns a
    string other than the three tiers. *)
Theorem C1_severity_table (r : row) (a s : Z)
    (Ha : a = -1 \/ a = 1) (Hs : s = 0 \/ s = 1)
    (Hra : r !! "anomaly" = Some (CInt a))
    (Hrs : r !! "possivel_ataque" = Some (CInt s)) :
  (exists tier, severity_table a s = Some tier /\ classifica_eventos r = Ok tier)
  /\ severity_table (-1) 1 = Some Critico
  /\ severity_table 1 1 = Some Suspeito
  /\ severity_table (-1) 0 = Some Normal
  /\ severity_table 1 0 = Some Normal
  /\ (forall r' : row,
        r' !! "anomaly" = r !! "anomaly" ->
        r' !! "possivel_ataque" = r !! "possivel_ataque" ->
        classifica_eventos r' = classifica_eventos r)
  /\ (forall (r' : row) tier,
        classifica_eventos r' = Ok tier ->
        tier = Normal \/ tier = Suspeito \/ tier = Critico).
Proof.
  repeat split; try reflexivity.
  - rewrite (classifica_eventos_cells r _ _ Hra Hrs).
    destruct Ha as [-> | ->], Hs as [-> | ->]; simpl; eauto.
  - intros r' Ha' Hs'. now apply classifica_eventos_ext.
  - apply classifica_eventos_range.
Qed.

Lemma C1_severity_table_witness :
  exists tier, severity_table (-1) 1 = Some tier /\
    classifica_eventos {[ "anomaly" := CInt (-1); "possivel_ataque" := CInt 1 ]}
      = Ok tier.
Proof.
  apply (C1_severity_table
           {[ "anomaly" := CInt (-1); "possivel_ataque" := CInt 1 ]} (-1) 1);
    [left; reflexivity | right; reflexivity | reflexivity | reflexivity].
Defined.

(** C10. The classifier is total on rows that carry the two columns, and
    every pair of cells outside the four combinations of the table -- an
    anomaly value that is neither -1 nor 1, or an attack signal that is not
    1 -- falls into the default branch, Normal. *)
Theorem C10_default_normal (r : row) (a s : cell)
    (Ha : r !! "anomaly" = Some a)
    (Hs : r !! "possivel_ataque" = Some s) :
  (exists tier, classifica_eventos r = Ok tier)
  /\ (in_table a s = false -> classifica_eventos r = Ok Normal)
  /\ (cell_eq_int s 1 = false -> classifica_eventos r = Ok Normal)
  /\ (cell_eq_int a (-1) = false -> cell_eq_int a 1 = false ->
      classifica_eventos r = Ok Normal).
Proof.
  rewrite (classifica_eventos_cells r a s Ha Hs).
  split; [eauto|]. unfold in_table.
  repeat split.
  - destruct (cell_eq_int a (-1)), (cell_eq_int a 1), (cell_eq_int s 1) eqn:E1;
      simpl; try reflexivity; try discriminate;
      destruct (cell_eq_int s 0); discriminate.
  - intros ->. now rewrite !andb_false_r.
  - intros -> ->. reflexivity.
Qed.

Lemma C10_default_normal_witness :
  classifica_eventos {[ "anomaly" := CInt 7; "possivel_ataque" := CStr "sim" ]}
    = Ok Normal.
Proof.
  apply (C10_default_normal
           {[ "anomaly" := CInt 7; "possivel_ataque" := CStr "sim" ]}
           (CInt 7) (CStr "sim")); reflexivity.
Defined.

(** ** Substring search *)

Lemma prefix_split (a b : string) :
  String.prefix a b = true <-> exists suf, b = (a ++ suf)%string.
Proof.
  revert b. induction a as [|c a IH]; intros b.
  - split; [intros _; now exists b | intros _; now destruct b].
  - destruct b as [|c' b]; simpl.
    + split; [discriminate | intros [suf H]; discriminate].
    + destruct (ascii_dec c c') as [->|Hne].
      * rewrite IH. split; intros [suf H]; exists suf.
        -- now rewrite H.
        -- now inversion H.
      * split; [discriminate | intros [suf H]; inversion H; congruence].
Qed.

Lemma str_in_nil (needle : string) :
  str_in needle "" = String.prefix needle "".
Proof. unfold str_in. now destruct (String.prefix needle ""). Qed.

Lemma str_in_cons (needle : string) c (hay : string) :
  str_in needle (String c hay) =
  String.prefix needle (String c hay) || str_in needle hay.
Proof. reflexivity. Qed.

Lemma str_in_split (needle hay : string) :
  str_in needle hay = true <->
  exists pre suf, hay = (pre ++ needle ++ suf)%string.
Proof.
  induction hay as [|c hay IH].
  - rewrite str_in_nil, prefix_split. split.
    + intros [suf H]. now exists "", suf.
    + intros [pre [suf H]]. destruct pre; [|discriminate]. now exists suf.
  - rewrite str_in_cons, orb_true_iff, IH, prefix_split. split.
    + intros [[suf H] | [pre [suf H]]].
      * now exists "", suf.
      * exists (String c pre), suf. simpl. now rewrite H.
    + intros [pre [suf H]]. destruct pre as [|c' pre].
      * left. now exists suf.
      * right. inversion H. eauto.
Qed.

Lemma lower_app (a b : string) :
  lower (a ++ b) = (lower a ++ lower b)%string.
Proof. induction a as [|c a IH]; simpl; [reflexivity | now rewrite IH]. Qed.

Lemma lower_app_inv (s x y : string) :
  lower s = (x ++ y)%string ->
  exists a b, s = (a ++ b)%string /\ lower a = x /\ lower b = y.
Proof.
  revert s. induction x as [|c x IH]; intros s H; simpl in H.
  - now exists "", s.
  - destruct s as [|c' s]; simpl in H; [discriminate|].
    inversion H as [[Hc Hs]]. destruct (IH _ Hs) as (a & b & -> & Ha & Hb).
    exists (String c' a), b. simpl. now rewrite Ha, Hb.
Qed.

Lemma contains_ci_str_in (keyword msg : string) :
  contains_ci keyword msg <-> str_in (lower keyword) (lower msg) = true.
Proof.
  rewrite str_in_split. unfold contains_ci. split.
  - intros (pre & w & suf & -> & Hw).
    exists (lower pre), (lower suf). now rewrite !lower_app, Hw.
  - intros (pre & suf & H).
    apply lower_app_inv in H as (a & b & -> & Ha & Hb).
    apply lower_app_inv in Hb as (w & c & -> & Hw & Hc).
    now exists a, w, c.
Qed.

(** The flag of one message, as the extractor computes it. *)
Lemma possivel_ataque_of_ci (msg : string) :
  (contains_ci "ataque" msg -> possivel_ataque_of (CStr msg) = Ok (CInt 1)) /\
  (~ contains_ci "ataque" msg -> possivel_ataque_of (CStr msg) = Ok (CInt 0)).
Proof.
  rewrite contains_ci_str_in. change (lower "ataque") with "ataque".
  unfold possivel_ataque_of, lambda_ataque.
  destruct (str_in "ataque" (lower msg)); split; intros H;
    try reflexivity; try discriminate; now destruct H.
Qed.

(** ** Running the stages on the heap *)

Lemma mapM_ok {A B} (f : A -> result B) (g : A -> B) (l : list A) :
  Forall (fun a => f a = Ok (g a)) l -> mapM f l = Ok (map g l).
Proof.
  induction 1 as [|a l Ha _ IH]; simpl; [reflexivity|].
  now rewrite Ha, IH.
Qed.

Lemma zip_with_insert_map {A} (k : string) (g : A -> cell) (rw : A -> row)
    (l : list A) :
  zip_with (fun r v => <[k := v]> r) (map rw l) (map g l)
  = map (fun a => <[k := g a]> (rw a)) l.
Proof. induction l as [|a l IH]; simpl; [reflexivity | now rewrite IH]. Qed.

Lemma read_frame_run (df : nat) (st : state) (d : DataFrame) :
  heap st !! df = Some d -> read_frame df st = (Ok d, st).
Proof. intros H. unfold read_frame. now rewrite H. Qed.

Lemma assign_column_run (df : nat) (k : string) (values : list cell)
    (st : state) (d : DataFrame) :
  heap st !! df = Some d ->
  length values = length d ->
  assign_column df k values st
  = (Ok tt, mkState (<[df := zip_with (fun r v => <[k := v]> r) d values]> (heap st))
                    (stdout st)).
Proof.
  intros H Hl. unfold assign_column, bind.
  rewrite (read_frame_run _ _ _ H). unfold lift, set_column.
  rewrite Hl, Nat.eqb_refl. reflexivity.
Qed.

Lemma assign_column_map {A} (df : nat) (k : string) (g : A -> cell)
    (rw : A -> row) (l : list A) (st : state) :
  heap st !! df = Some (map rw l) ->
  assign_column df k (map g l) st
  = (Ok tt, mkState (<[df := map (fun a => <[k := g a]> (rw a)) l]> (heap st))
                    (stdout st)).
Proof.
  intros H. rewrite (assign_column_run _ _ _ _ _ H).
  - now rewrite zip_with_insert_map.
  - now rewrite !length_map.
Qed.

Lemma get_column_map {A} (k : string) (g : A -> cell) (rw : A -> row)
    (l : list A) :
  (forall a, rw a !! k = Some (g a)) ->
  get_column k (map rw l) = Ok (map g l).
Proof.
  intros H. unfold get_column. induction l as [|a l IH]; simpl; [reflexivity|].
  rewrite (getitem_Some _ _ _ (H a)). simpl. now rewrite IH.
Qed.

Lemma extrai_features_events (df : nat) (st : state) (events : list Event) :
  heap st !! df = Some (frame_of_events events) ->
  extrai_features df st
  = (Ok df, mkState (<[df := map featured_row events]> (heap st)) (stdout st)).
Proof.
  intros H. unfold extrai_features, bind at 1.
  rewrite (read_frame_run _ _ _ H). unfold bind at 1, lift.
  unfold frame_of_events.
  rewrite (get_column_map "mensagem" (fun e => CStr (message e))) by reflexivity.
  simpl rbind.
  rewrite (mapM_ok _ (fun c => match c with
                               | CStr s => CInt (lambda_ataque s)
                               | _ => c end))
    by (apply Forall_map, Forall_forall; reflexivity).
  rewrite map_map. unfold bind at 1.
  rewrite (assign_column_map df "possivel_ataque"
             (fun e => CInt (lambda_ataque (message e))) row_of_event events st H).
  unfold bind at 1. erewrite read_frame_run by apply lookup_insert_eq.
  unfold bind at 1.
  rewrite (get_column_map "timestamp" (fun e => CTime (timestamp e))) by reflexivity.
  simpl rbind.
  rewrite (mapM_ok _ (fun c => match c with
                               | CTime t => CInt (ts_hour t)
                               | _ => c end))
    by (apply Forall_map, Forall_forall; reflexivity).
  rewrite map_map. unfold bind at 1.
  erewrite (assign_column_map df "hora" (fun e => CInt (ts_hour (timestamp e))))
    by apply lookup_insert_eq.
  unfold ret. simpl. now rewrite insert_insert_eq.
Qed.

Lemma featured_row_frame (e : Event) (k : string) :
  k <> "hora" -> k <> "possivel_ataque" ->
  featured_row e !! k = row_of_event e !! k.
Proof.
  intros H1 H2. unfold featured_row.
  rewrite lookup_insert_ne by congruence.
  now rewrite lookup_insert_ne by congruence.
Qed.

Lemma featured_row_hora (e : Event) :
  featured_row e !! "hora" = Some (CInt (ts_hour (timestamp e))).
Proof. unfold featured_row. apply lookup_insert_eq. Qed.

Lemma featured_row_flag (e : Event) :
  featured_row e !! "possivel_ataque" = Some (CInt (lambda_ataque (message e))).
Proof.
  unfold featured_row. rewrite lookup_insert_ne by discriminate.
  apply lookup_insert_eq.
Qed.

(** ** The feature extractor *)

(** C3, as the code has it.  After the extraction the flag of every event is
    1 when its message contains "ataque" as a case-insensitive substring and
    0 otherwise; no other keyword is searched. *)
Theorem C3_attack_signal (st : state) (df : nat) (events : list Event)
    (H : heap st !! df = Some (frame_of_events events)) :
  exists d',
    extrai_features df st
      = (Ok df, mkState (<[df := d']> (heap st)) (stdout st))
    /\ forall (i : nat) (e : Event), events !! i = Some e ->
         exists r' : row, d' !! i = Some r' /\
           (contains_ci "ataque" (message e) ->
              r' !! "possivel_ataque" = Some (CInt 1)) /\
           (~ contains_ci "ataque" (message e) ->
              r' !! "possivel_ataque" = Some (CInt 0)).
Proof.
  exists (map featured_row events). split.
  - now apply extrai_features_events.
  - intros i e Hi. exists (featured_row e). split.
    + now rewrite list_lookup_fmap, Hi.
    + pose proof (possivel_ataque_of_ci (message e)) as [Hy Hn].
      unfold featured_row. rewrite lookup_insert_ne by discriminate.
      rewrite lookup_insert_eq. simpl in Hy, Hn.
      split; intros Hc; [specialize (Hy Hc) | specialize (Hn Hc)]; congruence.
Qed.

Lemma C3_attack_signal_witness :
  exists d',
    extrai_features 0%nat (mkState {[ 0%nat := frame_of_events [ev_ataque] ]} [])
      = (Ok 0%nat, mkState (<[0%nat := d']> {[ 0%nat := frame_of_events [ev_ataque] ]}) [])
    /\ forall (i : nat) (e : Event), [ev_ataque] !! i = Some e ->
         exists r' : row, d' !! i = Some r' /\
           (contains_ci "ataque" (message e) ->
              r' !! "possivel_ataque" = Some (CInt 1)) /\
           (~ contains_ci "ataque" (message e) ->
              r' !! "possivel_ataque" = Some (CInt 0)).
Proof.
  exact (C3_attack_signal
           (mkState {[ 0%nat := frame_of_events [ev_ataque] ]} []) 0%nat
           [ev_ataque] eq_refl).
Defined.

(** C3 as stated fails: a message that contains "attack" (in any letter
    case) but not "ataque" gets the flag 0. *)
Lemma C3_counterexample :
  (contains_ci "attack" (message ev_attack) \/
   contains_ci "ataque" (message ev_attack)) /\
  exists (d' : DataFrame) (r' : row),
    heap (snd (extrai_features 0%nat
                 (mkState {[ 0%nat := frame_of_events [ev_attack] ]} [])))
      !! 0%nat = Some d'
    /\ d' !! 0%nat = Some r'
    /\ r' !! "possivel_ataque" = Some (CInt 0).
Proof.
  split.
  - left. apply contains_ci_str_in. reflexivity.
  - rewrite (extrai_features_events 0%nat _ [ev_attack]) by reflexivity.
    exists [featured_row ev_attack], (featured_row ev_attack).
    repeat split; reflexivity.
Qed.

(** C9, as the code has it.  The extractor works on the caller's frame: it
    adds to it the column [possivel_ataque], which holds the flag of every
    event's message, and the column [hora], which holds the hour of every
    event's timestamp, and it returns the same reference.  The number and
    order of the records, the four fields of every event and any column
    other than the two added ones are left as they were, as are the other
    frames of the heap and the console. *)
Theorem C9_extrai_features_frame (st : state) (df : nat) (events : list Event)
    (H : heap st !! df = Some (frame_of_events events)) :
  exists d',
    extrai_features df st
      = (Ok df, mkState (<[df := d']> (heap st)) (stdout st))
    /\ length d' = length events
    /\ (forall l : nat, l <> df -> (<[df := d']> (heap st)) !! l = heap st !! l)
    /\ forall (i : nat) (e : Event), events !! i = Some e ->
         exists r' : row, d' !! i = Some r' /\
           r' !! "possivel_ataque" = Some (CInt (lambda_ataque (message e))) /\
           r' !! "hora" = Some (CInt (ts_hour (timestamp e))) /\
           r' !! "timestamp" = Some (CTime (timestamp e)) /\
           r' !! "ip" = Some (CStr (source_ip e)) /\
           r' !! "nivel" = Some (CStr (level e)) /\
           r' !! "mensagem" = Some (CStr (message e)) /\
           (forall k : string, k <> "hora" -> k <> "possivel_ataque" ->
              r' !! k = row_of_event e !! k).
Proof.
  exists (map featured_row events). repeat split.
  - now apply extrai_features_events.
  - now rewrite length_map.
  - intros l Hl. now rewrite lookup_insert_ne.
  - intros i e Hi. exists (featured_row e).
    split; [now rewrite list_lookup_fmap, Hi|].
    split; [apply featured_row_flag|]. split; [apply featured_row_hora|].
    repeat split; try (rewrite featured_row_frame by discriminate; reflexivity).
    intros k. apply featured_row_frame.
Qed.

Lemma C9_extrai_features_frame_witness :
  exists (d' : DataFrame) (r' : row),
    extrai_features 0%nat (mkState {[ 0%nat := frame_of_events [ev_ataque] ]} [])
      = (Ok 0%nat,
         mkState (<[0%nat := d']> {[ 0%nat := frame_of_events [ev_ataque] ]}) [])
    /\ length d' = 1%nat
    /\ d' !! 0%nat = Some r'
    /\ r' !! "possivel_ataque" = Some (CInt 1)
    /\ r' !! "hora" = Some (CInt 3)
    /\ r' !! "mensagem" = Some (CStr "Acesso negado - Ataque detectado").
Proof.
  assert (H : heap (mkState {[ 0%nat := frame_of_events [ev_ataque] ]} [])
                 !! 0%nat = Some (frame_of_events [ev_ataque])) by reflexivity.
  destruct (C9_extrai_features_frame _ 0%nat [ev_ataque] H)
    as (d' & Hrun & Hlen & _ & Hrows).
  destruct (Hrows 0%nat ev_ataque eq_refl)
    as (r' & Hr & Hflag & Hhora & _ & _ & _ & Hmsg & _).
  exists d', r'.
  split; [exact Hrun|]. split; [exact Hlen|]. split; [exact Hr|].
  split; [exact Hflag|]. split; [exact Hhora | exact Hmsg].
Defined.

(** C9 as stated fails: the caller's frame is not the same after the call;
    its rows have gained a column. *)
Lemma C9_counterexample :
  snd (extrai_features 0%nat
         (mkState {[ 0%nat := frame_of_events [ev_normal] ]} []))
  <> mkState {[ 0%nat := frame_of_events [ev_normal] ]} [].
Proof.
  rewrite (extrai_features_events 0%nat _ [ev_normal]) by reflexivity.
  intros Heq.
  apply (f_equal (fun s : state =>
                    match heap s !! 0%nat with
                    | Some (r :: _) => r !! "hora"
                    | _ => None
                    end)) in Heq.
  vm_compute in Heq. discriminate.
Qed.

(** ** The alert emitter *)

Lemma classified_row_event (ce : ClassifiedEvent) (k : string) :
  k <> "hora" -> k <> "possivel_ataque" -> k <> "anomaly_score" ->
  k <> "anomaly" -> k <> "classificacao" ->
  classified_row ce !! k = row_of_event (event ce) !! k.
Proof.
  intros. unfold classified_row.
  rewrite !lookup_insert_ne by congruence.
  now apply featured_row_frame.
Qed.

Lemma alerta_classified (ce : ClassifiedEvent) :
  alerta (classified_row ce) = Ok (alert_of (event ce)).
Proof.
  unfold alerta, getitem.
  rewrite !classified_row_event by discriminate. reflexivity.
Qed.

Lemma select_rows_filter {A} (rw : A -> row) (P : A -> Prop)
    `{!forall a, Decision (P a)} (p : A -> bool) (l : list A) :
  (forall a, p a = true <-> P a) ->
  select_rows (map rw l) (map p l) = map rw (filter P l).
Proof.
  intros Hp. induction l as [|a l IH]; simpl; [reflexivity|].
  rewrite filter_cons. destruct (p a) eqn:E.
  - rewrite decide_True by now apply Hp. simpl. now rewrite IH.
  - rewrite decide_False; [exact IH|].
    intros HP. apply Hp in HP. congruence.
Qed.

Lemma for_each_print (l : list ClassifiedEvent) (st : state) :
  for_each (map classified_row l)
    (fun evento => a <- lift (alerta evento) ;; print a) st
  = (Ok tt, mkState (heap st) (stdout st ++ map (fun ce => alert_of (event ce)) l)).
Proof.
  revert st. induction l as [|ce l IH]; intros st; simpl.
  - unfold ret. rewrite app_nil_r. now destruct st.
  - unfold bind at 1. unfold bind at 1. unfold lift.
    rewrite alerta_classified. unfold print at 1.
    rewrite IH. simpl. now rewrite <- app_assoc.
Qed.

Lemma gerar_alertas_run (df : nat) (st : state) (l : list ClassifiedEvent) :
  heap st !! df = Some (map classified_row l) ->
  gerar_alertas df st
  = (Ok tt,
     mkState (heap st)
       (stdout st ++
        map (fun ce => alert_of (event ce))
          (filter (fun ce => severity ce = Critico) l))).
Proof.
  intros H. unfold gerar_alertas, bind at 1.
  rewrite (read_frame_run _ _ _ H). unfold bind at 1, lift.
  rewrite (get_column_map "classificacao" (fun ce => CStr (severity ce)))
    by reflexivity.
  rewrite map_map.
  rewrite (select_rows_filter classified_row (fun ce => severity ce = Critico)).
  - apply for_each_print.
  - intros ce. simpl. apply String.eqb_eq.
Qed.

(** C5. On a frame of classified events the alert generation prints one
    alert per event whose severity is Critical and none for another event:
    the alerts are those of the Critical events, in the order of the frame,
    each carrying the event's timestamp, address, level and message as they
    are.  It never raises; with no event, or no Critical one, nothing is
    printed.  The frame itself is left as it was. *)
Theorem C5_gerar_alertas (df : nat) (st : state) (l : list ClassifiedEvent)
    (H : heap st !! df = Some (map classified_row l)) :
  exists alerts : list line,
    gerar_alertas df st = (Ok tt, mkState (heap st) (stdout st ++ alerts))
    /\ alerts = map (fun ce => alert_of (event ce))
                  (filter (fun ce => severity ce = Critico) l)
    /\ length alerts = length (filter (fun ce => severity ce = Critico) l)
    /\ filter (fun ce => severity ce = Critico) l `sublist_of` l
    /\ (forall a, a ∈ alerts ->
          exists ce, ce ∈ l /\ severity ce = Critico /\
            a = [Lit "ALERTA CRÍTICO: "; Val (CTime (timestamp (event ce)));
                 Lit " | IP: "; Val (CStr (source_ip (event ce)));
                 Lit " | Nível: "; Val (CStr (level (event ce)));
                 Lit " | Mensagem: "; Val (CStr (message (event ce)))])
    /\ (forall ce, ce ∈ l -> severity ce = Critico ->
          alert_of (event ce) ∈ alerts)
    /\ (l = [] -> alerts = [])
    /\ (Forall (fun ce => severity ce <> Critico) l -> alerts = []).
Proof.
  exists (map (fun ce => alert_of (event ce))
            (filter (fun ce => severity ce = Critico) l)).
  split; [now apply gerar_alertas_run|].
  split; [reflexivity|]. split; [now rewrite length_map|].
  split; [apply sublist_filter|]. repeat split.
  - intros a Ha. apply list_elem_of_fmap in Ha as (ce & -> & Hce).
    apply list_elem_of_filter in Hce as [Hs Hin]. now exists ce.
  - intros ce Hin Hs. apply list_elem_of_fmap. exists ce. split; [reflexivity|].
    now apply list_elem_of_filter.
  - now intros ->.
  - intros Hall. clear H.
    induction Hall as [|ce l' Hne _ IH]; [reflexivity|].
    rewrite filter_cons, decide_False by exact Hne. exact IH.
Qed.

Lemma C5_gerar_alertas_witness :
  exists alerts : list line,
    gerar_alertas 0%nat
      (mkState {[ 0%nat := map classified_row
                             [mkClassified ev_normal (1 # 2) 1 Normal;
                              mkClassified ev_ataque (3 # 4) (-1) Critico] ]} [])
    = (Ok tt,
       mkState {[ 0%nat := map classified_row
                             [mkClassified ev_normal (1 # 2) 1 Normal;
                              mkClassified ev_ataque (3 # 4) (-1) Critico] ]}
         ([] ++ alerts))
    /\ alerts = [alert_of ev_ataque].
Proof.
  assert (H : heap (mkState {[ 0%nat := map classified_row
                             [mkClassified ev_normal (1 # 2) 1 Normal;
                              mkClassified ev_ataque (3 # 4) (-1) Critico] ]} [])
                !! 0%nat
              = Some (map classified_row
                        [mkClassified ev_normal (1 # 2) 1 Normal;
                         mkClassified ev_ataque (3 # 4) (-1) Critico]))
    by reflexivity.
  destruct (C5_gerar_alertas 0%nat _ _ H) as (alerts & Hrun & Heq & _).
  exists alerts. split; [exact Hrun|]. rewrite Heq. reflexivity.
Defined.

(** ** The isolation forest: parameters and batches *)


Lemma check_contamination_refused (c : Q) :
  ~ (0 < c /\ c <= 1 # 2)%Q ->
  check_contamination (JNum c) = Err InvalidParameterError.
Proof.
  intros H. unfold check_contamination.
  destruct (Qlt_le_dec 0 c) as [H0|_]; [|reflexivity].
  destruct (Qlt_le_dec (1 # 2) c) as [_|H1]; [reflexivity|].
  exfalso. apply H. now split.
Qed.

(** The only error of the parameter check. *)
Lemma check_contamination_error (v : json) (e : error) :
  check_contamination v = Err e -> e = InvalidParameterError.
Proof.
  unfold check_contamination. destruct v as [|b|q|s|l|m]; try congruence.
  - destruct (Qlt_le_dec 0 q); [|congruence].
    destruct (Qlt_le_dec (1 # 2) q); congruence.
  - destruct (String.eqb s "auto"); congruence.
Qed.

(** The estimator of the scripts has 100 trees and the seed 42: only its
    contamination can be refused. *)
Lemma validate_params_scripts (v : json) :
  validate_params (mkIsolationForest 100 v 42) = check_contamination v.
Proof.
  unfold validate_params. simpl contamination.
  destruct (check_contamination v); reflexivity.
Qed.

Lemma fit_run (E : IsolationEnsemble) (modelo : IsolationForest)
    (c : Contamination) (X : list FeatureVector) :
  validate_params modelo = Ok c -> X <> [] ->
  fit E modelo X
  = Ok (mkFitted (build_trees E (n_estimators modelo) (random_state modelo) X)
          (offset_de E c
             (build_trees E (n_estimators modelo) (random_state modelo) X) X)).
Proof.
  intros Hc Hne. unfold fit. rewrite Hc. simpl.
  destruct X; [congruence | reflexivity].
Qed.

Lemma fit_refused (E : IsolationEnsemble) (modelo : IsolationForest)
    (e : error) (X : list FeatureVector) :
  validate_params modelo = Err e -> fit E modelo X = Err e.
Proof. intros Hc. unfold fit. now rewrite Hc. Qed.

Lemma fit_empty (E : IsolationEnsemble) (modelo : IsolationForest)
    (c : Contamination) :
  validate_params modelo = Ok c -> fit E modelo [] = Err ValueError.
Proof. intros Hc. unfold fit. now rewrite Hc. Qed.

(** ** The detection and classification stages on the heap *)

Lemma select_features_events (events : list Event) :
  select_features (map featured_row events) = Ok (map feature_of events).
Proof.
  unfold select_features. rewrite (mapM_ok _ (fun r =>
    match r !! "hora", r !! "possivel_ataque" with
    | Some (CInt h), Some (CInt p) => (h, p)
    | _, _ => (0, 0)
    end)).
  - rewrite map_map. reflexivity.
  - apply Forall_map, Forall_forall. intros e _. unfold getitem.
    now rewrite featured_row_hora, featured_row_flag.
Qed.

(** A refused estimator stops the detection before any column is
    assigned. *)
Lemma deteccao_refused (E : IsolationEnsemble) (df : nat)
    (features : list FeatureVector) (v : json) (e : error) (st : state) :
  check_contamination v = Err e ->
  deteccao E df features v st = (Err e, st).
Proof.
  intros Hc. unfold deteccao, bind at 1, lift.
  rewrite (fit_refused E _ e); [reflexivity|].
  now rewrite validate_params_scripts.
Qed.

(** So does a batch without any sample. *)
Lemma deteccao_vazio (E : IsolationEnsemble) (df : nat) (v : json)
    (c : Contamination) (st : state) :
  check_contamination v = Ok c ->
  deteccao E df [] v st = (Err ValueError, st).
Proof.
  intros Hc. unfold deteccao, bind at 1, lift.
  rewrite (fit_empty E _ c); [reflexivity|].
  now rewrite validate_params_scripts.
Qed.

Section Detection.

Context {A : Type} (E : IsolationEnsemble).
Variables (rw : A -> row) (fv : A -> FeatureVector) (l : list A).
Variable c : Contamination.

Let trees : ensemble E := build_trees E 100 42 (map fv l).
Let dec (a : A) : Q :=
  (score_samples E trees (fv a) - offset_de E c trees (map fv l))%Q.

Lemma deteccao_run (df : nat) (v : json) (st : state) :
  heap st !! df = Some (map rw l) ->
  l <> [] ->
  check_contamination v = Ok c ->
  deteccao E df (map fv l) v st
  = (Ok tt,
     mkState
       (<[df := map (fun a =>
                       <[ "anomaly" := CInt (is_inlier (dec a)) ]>
                         (<[ "anomaly_score" := CFloat (dec a) ]> (rw a))) l]>
          (heap st))
       (stdout st)).
Proof.
  intros H Hne Hc. unfold deteccao, bind at 1, lift.
  rewrite (fit_run E _ c);
    [| now rewrite validate_params_scripts
     | destruct l; [congruence | discriminate]].
  simpl n_estimators. simpl random_state. fold trees.
  assert (Hd : decision_function E
                 (mkFitted trees (offset_de E c trees (map fv l))) (map fv l)
               = map dec l)
    by (unfold decision_function; rewrite map_map; reflexivity).
  unfold predict. rewrite Hd, !map_map.
  unfold bind at 1.
  rewrite (assign_column_map df "anomaly_score" (fun a => CFloat (dec a)) rw l st H).
  erewrite (assign_column_map df "anomaly" (fun a => CInt (is_inlier (dec a))))
    by apply lookup_insert_eq.
  simpl. now rewrite insert_insert_eq.
Qed.

End Detection.

Lemma classifica_run {A} (rw : A -> row) (lab flag : A -> Z) (l : list A)
    (df : nat) (st : state) :
  (forall a, rw a !! "anomaly" = Some (CInt (lab a))) ->
  (forall a, rw a !! "possivel_ataque" = Some (CInt (flag a))) ->
  heap st !! df = Some (map rw l) ->
  classifica df st
  = (Ok tt,
     mkState
       (<[df := map (fun a =>
                       <[ "classificacao" := CStr (tier (lab a) (flag a)) ]> (rw a)) l]>
          (heap st))
       (stdout st)).
Proof.
  intros Hlab Hflag H. unfold classifica, bind at 1.
  rewrite (read_frame_run _ _ _ H). unfold bind at 1, lift.
  assert (Hm : mapM classifica_eventos (map rw l)
               = Ok (map (fun a => tier (lab a) (flag a)) l)).
  { clear H. induction l as [|a l' IH]; simpl; [reflexivity|].
    rewrite (classifica_eventos_cells _ _ _ (Hlab a) (Hflag a)). simpl.
    now rewrite IH. }
  rewrite Hm, map_map.
  now rewrite (assign_column_map df "classificacao"
                 (fun a => CStr (tier (lab a) (flag a))) rw l st H).
Qed.

Section Pipelines.

Variable E : IsolationEnsemble.
Variables (df : nat) (events : list Event) (st : state).
Hypothesis Hframe : heap st !! df = Some (frame_of_events events).
Hypothesis Hne : events <> [].

Let st1 : state :=
  mkState (<[df := map featured_row events]> (heap st)) (stdout st).

Let trees : ensemble E := build_trees E 100 42 (map feature_of events).
Let dec (c : Contamination) (e : Event) : Q :=
  (score_samples E trees (feature_of e)
   - offset_de E c trees (map feature_of events))%Q.

Let st2 (c : Contamination) : state :=
  mkState
    (<[df := map (fun e => <[ "anomaly" := CInt (is_inlier (dec c e)) ]>
                             (<[ "anomaly_score" := CFloat (dec c e) ]>
                                (featured_row e))) events]> (heap st))
    (stdout st).

Lemma extrai_features_st1 : extrai_features df st = (Ok df, st1).
Proof. now apply extrai_features_events. Qed.

Lemma deteccao_events (v : json) (c : Contamination) :
  check_contamination v = Ok c ->
  deteccao E df (map feature_of events) v st1 = (Ok tt, st2 c).
Proof.
  intros Hc.
  rewrite (deteccao_run E featured_row feature_of events c df v st1);
    [|apply lookup_insert_eq | exact Hne | exact Hc].
  unfold st2, st1. simpl. now rewrite insert_insert_eq.
Qed.

Lemma classified_frame (c : Contamination) :
  map (fun e => <[ "classificacao" :=
                     CStr (tier (is_inlier (dec c e)) (lambda_ataque (message e))) ]>
                  (<[ "anomaly" := CInt (is_inlier (dec c e)) ]>
                     (<[ "anomaly_score" := CFloat (dec c e) ]> (featured_row e))))
      events
  = map classified_row (classified_events E c events).
Proof. unfold classified_events. rewrite map_map. reflexivity. Qed.

(** Classification and alerts, from the frame with its labels on. *)
Lemma classifica_alertas_run (c : Contamination) :
  (_ <- classifica df ;; gerar_alertas df) (st2 c)
  = (Ok tt, final_state E c df events st).
Proof.
  unfold bind at 1.
  rewrite (classifica_run
             (fun e => <[ "anomaly" := CInt (is_inlier (dec c e)) ]>
                         (<[ "anomaly_score" := CFloat (dec c e) ]> (featured_row e)))
             (fun e => is_inlier (dec c e))
             (fun e => lambda_ataque (message e)) events df (st2 c));
    [| intros e; apply lookup_insert_eq
     | intros e; rewrite !lookup_insert_ne by discriminate;
       apply featured_row_flag
     | apply lookup_insert_eq].
  rewrite classified_frame.
  erewrite gerar_alertas_run by apply lookup_insert_eq.
  unfold final_state, st2. simpl. now rewrite insert_insert_eq.
Qed.

Lemma pipeline_simulado_run :
  pipeline_simulado E df st
  = (Ok tt, final_state E (Fraction (1 # 10)) df events st).
Proof.
  unfold pipeline_simulado, bind at 1. rewrite extrai_features_st1.
  unfold bind at 1. erewrite read_frame_run by apply lookup_insert_eq.
  unfold bind at 1, lift. rewrite select_features_events.
  unfold bind at 1. rewrite (deteccao_events _ (Fraction (1 # 10))) by reflexivity.
  apply classifica_alertas_run.
Qed.

Lemma detectar_anomalias_run (config v : json) (c : Contamination) :
  dict_get config "contamination" default_contamination = Ok v ->
  check_contamination v = Ok c ->
  detectar_anomalias E df config st1 = (Ok df, st2 c).
Proof.
  intros Hcfg Hc. unfold detectar_anomalias, bind at 1.
  erewrite read_frame_run by apply lookup_insert_eq.
  unfold bind at 1, lift. rewrite select_features_events.
  unfold bind at 1. rewrite Hcfg. unfold bind at 1.
  now rewrite (deteccao_events v c Hc).
Qed.

(** A contamination that the library refuses stops the run after the
    feature extraction: no score and no label is written. *)
Lemma detectar_anomalias_refused (config v : json) (e : error) :
  dict_get config "contamination" default_contamination = Ok v ->
  check_contamination v = Err e ->
  detectar_anomalias E df config st1 = (Err e, st1).
Proof.
  intros Hcfg Hc. unfold detectar_anomalias, bind at 1.
  erewrite read_frame_run by apply lookup_insert_eq.
  unfold bind at 1, lift. rewrite select_features_events.
  unfold bind at 1. rewrite Hcfg. unfold bind at 1.
  now rewrite (deteccao_refused E df _ v e st1 Hc).
Qed.

Lemma etapas_run (config v : json) (c : Contamination) :
  dict_get config "contamination" default_contamination = Ok v ->
  check_contamination v = Ok c ->
  etapas E config df st = (Ok tt, final_state E c df events st).
Proof.
  intros Hcfg Hc. unfold etapas, bind at 1.
  rewrite extrai_features_st1. unfold bind at 1.
  rewrite (detectar_anomalias_run _ v c Hcfg Hc).
  apply classifica_alertas_run.
Qed.

Lemma etapas_refused (config v : json) (e : error) :
  dict_get config "contamination" default_contamination = Ok v ->
  check_contamination v = Err e ->
  etapas E config df st = (Err e, st1).
Proof.
  intros Hcfg Hc. unfold etapas, bind at 1.
  rewrite extrai_features_st1. unfold bind at 1.
  now rewrite (detectar_anomalias_refused _ v e Hcfg Hc).
Qed.

(** A configuration that is no dictionary stops the run at the same
    place. *)
Lemma etapas_nao_dict (config : json) :
  (forall m, config <> JObj m) ->
  etapas E config df st = (Err AttributeError, st1).
Proof.
  intros Hj. unfold etapas, bind at 1.
  rewrite extrai_features_st1. unfold bind at 1.
  unfold detectar_anomalias, bind at 1.
  erewrite read_frame_run by apply lookup_insert_eq.
  unfold bind at 1, lift. rewrite select_features_events.
  unfold bind at 1.
  destruct config as [|b|q|s|l|m]; try reflexivity. now destruct (Hj m).
Qed.

Lemma pipeline_ler_arquivo_run (f : config_file) (v : json) (c : Contamination) :
  (config <~ ler_config_contexto f;
   dict_get config "contamination" default_contamination) = Ok v ->
  check_contamination v = Ok c ->
  pipeline_ler_arquivo E f df st = (Ok tt, final_state E c df events st).
Proof.
  intros Hcfg Hc. unfold pipeline_ler_arquivo, bind at 1, lift.
  destruct (ler_config_contexto f) as [config|e]; [|discriminate Hcfg].
  simpl in Hcfg. now apply (etapas_run config v c).
Qed.

End Pipelines.

(** ** Index alignment of the pipeline *)

Lemma classified_events_aligned (E : IsolationEnsemble) (v : json)
    (c : Contamination) (events : list Event) :
  events <> [] ->
  check_contamination v = Ok c ->
  aligned E v events (classified_events E c events).
Proof.
  intros Hne Hc. unfold aligned. eexists. split.
  { apply (fit_run E _ c); [now rewrite validate_params_scripts|].
    destruct events; [congruence | discriminate]. }
  split.
  - unfold classified_events. now rewrite length_map.
  - intros i e Hi. eexists. split.
    { unfold classified_events. rewrite list_lookup_fmap, Hi. reflexivity. }
    simpl. split; [reflexivity|].
    split; [now rewrite list_lookup_fmap, Hi|].
    split; [unfold decision_function; now rewrite !list_lookup_fmap, Hi|].
    split.
    { unfold predict, decision_function. now rewrite !list_lookup_fmap, Hi. }
    split; [|reflexivity].
    erewrite classifica_eventos_cells; cycle 1.
    + unfold classified_row. rewrite lookup_insert_ne by discriminate.
      apply lookup_insert_eq.
    + unfold classified_row. rewrite !lookup_insert_ne by discriminate.
      apply featured_row_flag.
    + reflexivity.
Qed.

(** C4. On a batch of at least one event and with a contamination that the
    library accepts, both pipelines run to the end and leave in the caller's
    frame one classified record per event, none dropped: the record at
    index [i] holds the fields of the event at index [i], and its feature
    vector, decision value, label and tier are those found at index [i] of
    the batch's features, decision values and labels. *)
Theorem C4_index_alignment (E : IsolationEnsemble) (f : config_file)
    (v : json) (c : Contamination)
    (df : nat) (events : list Event) (st : state)
    (Hframe : heap st !! df = Some (frame_of_events events))
    (Hne : events <> [])
    (Hcfg : (config <~ ler_config_contexto f;
             dict_get config "contamination" default_contamination) = Ok v)
    (Hc : check_contamination v = Ok c) :
  (exists (out : list ClassifiedEvent) (st' : state),
      pipeline_ler_arquivo E f df st = (Ok tt, st')
      /\ heap st' !! df = Some (map classified_row out)
      /\ aligned E v events out
      /\ forall (i : nat) (e : Event), events !! i = Some e ->
           exists r : row, map classified_row out !! i = Some r /\
             r !! "timestamp" = Some (CTime (timestamp e)) /\
             r !! "ip" = Some (CStr (source_ip e)) /\
             r !! "nivel" = Some (CStr (level e)) /\
             r !! "mensagem" = Some (CStr (message e)))
  /\ (exists (out : list ClassifiedEvent) (st' : state),
        pipeline_simulado E df st = (Ok tt, st')
        /\ heap st' !! df = Some (map classified_row out)
        /\ aligned E (JNum (1 # 10)) events out
        /\ forall (i : nat) (e : Event), events !! i = Some e ->
             exists r : row, map classified_row out !! i = Some r /\
               r !! "timestamp" = Some (CTime (timestamp e)) /\
               r !! "ip" = Some (CStr (source_ip e)) /\
               r !! "nivel" = Some (CStr (level e)) /\
               r !! "mensagem" = Some (CStr (message e))).
Proof.
  assert (Hrows : forall c' (i : nat) (e : Event), events !! i = Some e ->
            exists r : row,
              map classified_row (classified_events E c' events) !! i = Some r /\
              r !! "timestamp" = Some (CTime (timestamp e)) /\
              r !! "ip" = Some (CStr (source_ip e)) /\
              r !! "nivel" = Some (CStr (level e)) /\
              r !! "mensagem" = Some (CStr (message e))).
  { intros c' i e Hi. eexists. split.
    - unfold classified_events. rewrite !list_lookup_fmap, Hi. reflexivity.
    - repeat split; rewrite classified_row_event by discriminate; reflexivity. }
  split.
  - exists (classified_events E c events), (final_state E c df events st).
    split; [now apply (pipeline_ler_arquivo_run E df events st Hframe Hne f v c)|].
    split; [apply lookup_insert_eq|].
    split; [now apply classified_events_aligned | apply Hrows].
  - exists (classified_events E (Fraction (1 # 10)) events),
           (final_state E (Fraction (1 # 10)) df events st).
    split; [now apply pipeline_simulado_run|].
    split; [apply lookup_insert_eq|].
    split; [now apply classified_events_aligned | apply Hrows].
Qed.

Lemma C4_index_alignment_witness :
  exists (out : list ClassifiedEvent) (st' : state),
    pipeline_ler_arquivo sample_ensemble NoFile 0%nat sample_state = (Ok tt, st')
    /\ heap st' !! 0%nat = Some (map classified_row out)
    /\ aligned sample_ensemble (JNum (1 # 10)) sample_events out.
Proof.
  assert (Hframe : heap sample_state !! 0%nat = Some (frame_of_events sample_events))
    by reflexivity.
  assert (Hne : sample_events <> []) by discriminate.
  assert (Hcfg : (config <~ ler_config_contexto NoFile;
                  dict_get config "contamination" default_contamination)
                 = Ok (JNum (1 # 10))) by reflexivity.
  assert (Hc : check_contamination (JNum (1 # 10)) = Ok (Fraction (1 # 10)))
    by reflexivity.
  destruct (C4_index_alignment sample_ensemble NoFile (JNum (1 # 10))
              (Fraction (1 # 10)) 0%nat sample_events sample_state
              Hframe Hne Hcfg Hc)
    as [(out & st' & Hrun & Hheap & Hal & _) _].
  exists out, st'. split; [exact Hrun | split; [exact Hheap | exact Hal]].
Defined.
(** ** The percentile: ordering of the scores *)








(** ** Counting the scores above a threshold *)










Lemma count_eq_nth (t : Q) (s : list Q) (i : nat) :
  (i < length s)%nat -> (nth i s 0 == t)%Q -> (1 <= count_eq t s)%nat.
Proof.
  revert i. induction s as [|x s IH]; intros i Hi He; simpl in *; [lia|].
  destruct i as [|i].
  - apply Qeq_bool_iff in He. rewrite He. lia.
  - assert (1 <= count_eq t s)%nat by (apply (IH i); [lia | exact He]). lia.
Qed.

(** Two scores equal to the threshold are counted twice. *)
Lemma count_eq_two (t : Q) (s : list Q) (i j : nat) :
  (i < j)%nat -> (j < length s)%nat ->
  (nth i s 0 == t)%Q -> (nth j s 0 == t)%Q -> (2 <= count_eq t s)%nat.
Proof.
  revert i j. induction s as [|x s IH]; intros i j Hij Hj Hi He; simpl in *; [lia|].
  destruct j as [|j]; [lia|]. destruct i as [|i].
  - apply Qeq_bool_iff in Hi. rewrite Hi.
    assert (1 <= count_eq t s)%nat by (apply (count_eq_nth t s j); [lia | exact He]).
    lia.
  - assert (2 <= count_eq t s)%nat by (apply (IH i j); [lia | lia | exact Hi | exact He]).
    lia.
Qed.



(** ** Order statistics by counting *)





(** ** The percentile of the opposite scores *)


Lemma Qfloor_unique (q : Q) (z : Z) :
  (inject_Z z <= q)%Q -> (q < inject_Z (z + 1))%Q -> Qfloor q = z.
Proof.
  intros Hle Hlt. pose proof (Qfloor_le q) as Hf1.
  pose proof (Qlt_floor q) as Hf2.
  assert (H1 : (inject_Z z < inject_Z (Qfloor q + 1))%Q) by lra.
  assert (H2 : (inject_Z (Qfloor q) < inject_Z (z + 1))%Q) by lra.
  rewrite <- Zlt_Qlt in H1, H2. lia.
Qed.


(** The percentile of a batch of one score is that score. *)
Lemma quantile_singleton (q x : Q) : (quantile q [x] == x)%Q.
Proof.
  unfold quantile. simpl sort_scores. simpl length.
  change (Z.of_nat 1 - 1) with 0.
  assert (Hf : Qfloor (inject_Z 0 * q) = 0).
  { apply Qfloor_unique; change (inject_Z 0) with 0%Q;
      [|change (inject_Z (0 + 1)) with 1%Q]; lra. }
  rewrite Hf. simpl. ring.
Qed.
(** ** The decision: how many events are labelled anomalous *)

Section Threshold.

Variables (scores : list Q) (c : Q).
Hypothesis Hne : scores <> [].
Hypothesis H0 : (0 < c)%Q.
Hypothesis H1 : (c < 1)%Q.

Let s : list Q := sort_scores scores.
Let N : Z := Z.of_nat (length scores).
Let h : Q := (inject_Z (N - 1) * (1 - c))%Q.
Let lo : Z := Qfloor h.
Let hi : Z := Z.min (lo + 1) (N - 1).
Let frac : Q := (h - inject_Z lo)%Q.
Let a : Q := nth (Z.to_nat lo) s 0%Q.
Let b : Q := nth (Z.to_nat hi) s 0%Q.
Let t : Q := quantile (1 - c) scores.












End Threshold.



Lemma is_inlier_nonneg (d : Q) : (0 <= d)%Q -> is_inlier d = 1.
Proof.
  intros H. unfold is_inlier.
  destruct (Qlt_le_dec d 0) as [Hlt|_]; [exfalso; lra | reflexivity].
Qed.








(** ** The isolation forest: refused inputs *)

Lemma validate_params_error (modelo : IsolationForest) (e : error) :
  validate_params modelo = Err e -> e = InvalidParameterError.
Proof.
  unfold validate_params.
  destruct (check_contamination (contamination modelo)) as [c|e'] eqn:Hc; simpl.
  - destruct (n_estimators modelo =? 0)%nat; [congruence|].
    destruct ((0 <=? random_state modelo)%Z && (random_state modelo <? 2 ^ 32)%Z);
      congruence.
  - intros H. inversion H; subst. now apply (check_contamination_error _ _ Hc).
Qed.

Lemma fit_error (E : IsolationEnsemble) (modelo : IsolationForest)
    (X : list FeatureVector) (e : error) :
  fit E modelo X = Err e -> e = InvalidParameterError \/ e = ValueError.
Proof.
  unfold fit. destruct (validate_params modelo) as [c|e'] eqn:Hc; simpl.
  - destruct X; [|discriminate]. intros H. inversion H. now right.
  - intros H. inversion H; subst. left. now apply (validate_params_error modelo).
Qed.

(** The offset of a batch of one is the score of its only event, whose
    decision value is then 0, whatever the trees say. *)
Lemma decision_singleton (E : IsolationEnsemble) (trees : ensemble E)
    (q : Q) (x : FeatureVector) :
  (score_samples E trees x - offset_de E (Fraction q) trees [x] == 0)%Q.
Proof. simpl. rewrite quantile_singleton. ring. Qed.

Lemma tier_normal_label (flag : Z) : tier 1 flag <> Critico.
Proof. unfold tier. simpl. destruct (flag =? 1)%Z; discriminate. Qed.

Lemma classified_singleton (E : IsolationEnsemble) (q : Q) (e : Event) :
  exists ce : ClassifiedEvent,
    classified_events E (Fraction q) [e] = [ce]
    /\ event ce = e
    /\ anomaly_label ce = 1
    /\ (isolation_score ce == 0)%Q
    /\ severity ce <> Critico.
Proof.
  eexists. split; [reflexivity|]. simpl.
  pose proof (decision_singleton E (build_trees E 100 42 [feature_of e]) q
                (feature_of e)) as Hd. simpl in Hd.
  split; [reflexivity|].
  assert (Hl : is_inlier
                 (score_samples E (build_trees E 100 42 [feature_of e])
                    (feature_of e)
                  - quantile q
                      [score_samples E (build_trees E 100 42 [feature_of e])
                         (feature_of e)]) = 1)
    by (apply is_inlier_nonneg; lra).
  split; [exact Hl|]. split; [exact Hd|].
  rewrite Hl. apply tier_normal_label.
Qed.

(** C6, as the code has it.  For an estimator whose parameters are accepted,
    fitting the empty batch fails with [ValueError], and every batch of one
    vector or more is fitted; no fit fails with [InsufficientDataError].  A
    batch of one vector is fitted like any other: when the contamination is
    a fraction its only event gets the label +1, so a frame of one event
    goes through the whole pipeline, ends classified without being
    Critical, and no alert is printed; on the empty batch the detection
    block stops before any column is assigned. *)
Theorem C6_fit_batch_size (E : IsolationEnsemble) (modelo : IsolationForest)
    (c : Contamination) (Hc : validate_params modelo = Ok c) :
  fit E modelo [] = Err ValueError
  /\ (forall X : list FeatureVector, X <> [] ->
        exists modelo_if : FittedForest E,
          fit E modelo X = Ok modelo_if
          /\ estimators_ modelo_if
             = build_trees E (n_estimators modelo) (random_state modelo) X)
  /\ (forall (modelo' : IsolationForest) (X : list FeatureVector),
        fit E modelo' X <> Err InsufficientDataError)
  /\ (forall (q : Q) (x : FeatureVector), c = Fraction q ->
        exists modelo_if : FittedForest E,
          fit E modelo [x] = Ok modelo_if
          /\ predict E modelo_if [x] = [1])
  /\ (forall (df : nat) (e : Event) (st : state),
        heap st !! df = Some (frame_of_events [e]) ->
        exists ce : ClassifiedEvent,
          event ce = e /\ anomaly_label ce = 1 /\ severity ce <> Critico
          /\ pipeline_simulado E df st
             = (Ok tt,
                mkState (<[df := [classified_row ce]]> (heap st)) (stdout st)))
  /\ (forall (df : nat) (v : json) (c' : Contamination) (st : state),
        check_contamination v = Ok c' ->
        deteccao E df [] v st = (Err ValueError, st)).
Proof.
  split; [now apply (fit_empty E modelo c)|].
  split.
  { intros X HX. eexists. split; [now apply (fit_run E modelo c)|]. reflexivity. }
  split.
  { intros modelo' X H. apply fit_error in H as [H|H]; discriminate H. }
  split.
  { intros q x ->. eexists. split.
    - apply (fit_run E modelo (Fraction q)); [exact Hc | discriminate].
    - pose proof (decision_singleton E
                    (build_trees E (n_estimators modelo) (random_state modelo) [x])
                    q x) as Hd.
      unfold predict, decision_function. simpl in *.
      rewrite is_inlier_nonneg; [reflexivity | lra]. }
  split.
  { intros df e st Hframe.
    destruct (classified_singleton E (1 # 10) e) as (ce & Hce & He & Hl & _ & Hs).
    exists ce. split; [exact He|]. split; [exact Hl|]. split; [exact Hs|].
    rewrite (pipeline_simulado_run E df [e] st Hframe) by discriminate.
    unfold final_state. rewrite Hce. simpl map.
    rewrite (filter_cons_False _ ce []) by exact Hs.
    rewrite filter_nil. simpl. now rewrite app_nil_r. }
  intros df v c' st Hv. now apply (deteccao_vazio E df v c').
Qed.

Lemma C6_fit_batch_size_witness :
  fit sample_ensemble (mkIsolationForest 100 (JNum (1 # 10)) 42) []
  = Err ValueError
  /\ exists modelo_if : FittedForest sample_ensemble,
       fit sample_ensemble (mkIsolationForest 100 (JNum (1 # 10)) 42) [(9, 0)]
       = Ok modelo_if
       /\ predict sample_ensemble modelo_if [(9, 0)] = [1].
Proof.
  assert (Hc : validate_params (mkIsolationForest 100 (JNum (1 # 10)) 42)
               = Ok (Fraction (1 # 10))) by reflexivity.
  destruct (C6_fit_batch_size sample_ensemble _ _ Hc)
    as (Hempty & _ & _ & Hone & _).
  split; [exact Hempty|].
  destruct (Hone (1 # 10) (9, 0) eq_refl) as (modelo_if & Hfit & Hp).
  exists modelo_if. split; [exact Hfit | exact Hp].
Defined.

(** C6 as stated fails: a batch of one vector is fitted, and the refusal of
    the empty batch is a [ValueError]. *)
Lemma C6_counterexample :
  (exists modelo_if : FittedForest sample_ensemble,
      fit sample_ensemble (mkIsolationForest 100 (JNum (1 # 10)) 42) [(9, 0)]
      = Ok modelo_if)
  /\ fit sample_ensemble (mkIsolationForest 100 (JNum (1 # 10)) 42) []
     <> Err InsufficientDataError.
Proof.
  split; [eexists; reflexivity | discriminate].
Qed.

(** C7.  A contamination that does not lie strictly between 0 and 1 is
    refused with [InvalidParameterError] when the estimator is fitted,
    whatever the batch; the detection block then stops before it assigns
    any column, and the file-reading pipeline ends with that error, its
    frame holding the two feature columns and neither score nor label. *)
Theorem C7_invalid_contamination (E : IsolationEnsemble) (c : Q)
    (H : ~ (0 < c /\ c < 1)%Q) :
  (forall (n : nat) (seed : Z) (X : list FeatureVector),
      fit E (mkIsolationForest n (JNum c) seed) X = Err InvalidParameterError)
  /\ (forall (df : nat) (features : list FeatureVector) (st : state),
        deteccao E df features (JNum c) st = (Err InvalidParameterError, st))
  /\ (forall (f : config_file) (m : gmap string json) (df : nat)
             (events : list Event) (st : state),
        ler_config_contexto f = Ok (JObj m) ->
        m !! "contamination" = Some (JNum c) ->
        heap st !! df = Some (frame_of_events events) ->
        pipeline_ler_arquivo E f df st
        = (Err InvalidParameterError,
           mkState (<[df := map featured_row events]> (heap st)) (stdout st))).
Proof.
  assert (Hc : check_contamination (JNum c) = Err InvalidParameterError).
  { apply check_contamination_refused. intros [H0 H1]. apply H. split; lra. }
  split; [|split].
  - intros n seed X. apply fit_refused. unfold validate_params.
    simpl contamination. now rewrite Hc.
  - intros df features st. now apply deteccao_refused.
  - intros f m df events st Hf Hm Hframe.
    unfold pipeline_ler_arquivo, bind at 1, lift. rewrite Hf.
    apply (etapas_refused E df events st Hframe (JObj m) (JNum c));
      [|exact Hc].
    simpl. now rewrite Hm.
Qed.

Lemma C7_invalid_contamination_witness :
  pipeline_ler_arquivo sample_ensemble
    (Json (JObj {[ "contamination" := JNum (3 # 2) ]})) 0%nat sample_state
  = (Err InvalidParameterError,
     mkState (<[0%nat := map featured_row sample_events]> (heap sample_state))
       (stdout sample_state)).
Proof.
  assert (H : ~ (0 < 3 # 2 /\ 3 # 2 < 1)%Q) by (intros [_ H]; discriminate H).
  destruct (C7_invalid_contamination sample_ensemble (3 # 2) H) as (_ & _ & Hp).
  apply (Hp (Json (JObj {[ "contamination" := JNum (3 # 2) ]}))
            {[ "contamination" := JNum (3 # 2) ]}); reflexivity.
Defined.

(** ** The configuration *)

Lemma pipelines_agree (E : IsolationEnsemble) (f : config_file) (df : nat)
    (st : state) :
  (config <~ ler_config_contexto f;
   dict_get config "contamination" default_contamination)
    = Ok (JNum (1 # 10)) ->
  pipeline_ler_arquivo E f df st = pipeline_simulado E df st.
Proof.
  intros Hcfg.
  unfold pipeline_ler_arquivo, bind at 1, lift.
  destruct (ler_config_contexto f) as [config|e]; [|discriminate Hcfg].
  simpl in Hcfg.
  unfold etapas, pipeline_simulado, detectar_anomalias, bind, ret.
  destruct (extrai_features df st) as [[df1|e] st1]; [|reflexivity].
  destruct (read_frame df1 st1) as [[d|e] st1']; [|reflexivity].
  unfold lift. destruct (select_features d) as [features|e]; [|reflexivity].
  rewrite Hcfg.
  destruct (deteccao E df1 features (JNum (1 # 10)) st1') as [[[]|e] st2];
    reflexivity.
Qed.

(** C8, where the code departs from it.  A missing configuration file, a
    file that [json.load] rejects and a configuration dictionary without a
    [contamination] entry are absorbed: the run is the run of the script
    whose contamination is the literal 0.1, and it goes to the end.  But a
    file that holds the JSON list [[]], which has no such entry either, is
    returned as it is, and the run ends with [AttributeError] after the
    feature extraction; and a file whose reading raises another exception
    than the one of [json.load], as [UnicodeDecodeError] for a file that is
    not UTF-8 text, makes the reading of the configuration itself end with
    that exception, before the log file is opened. *)
Theorem C8_config_not_absorbed (E : IsolationEnsemble)
    (strptime : string -> option Timestamp)
    (df : nat) (events : list Event) (st : state)
    (Hframe : heap st !! df = Some (frame_of_events events))
    (Hne : events <> []) :
  (forall f : config_file,
      f = NoFile \/ f = BadJson \/
      (exists m : gmap string json,
          f = Json (JObj m) /\ m !! "contamination" = None) ->
      pipeline_ler_arquivo E f df st = pipeline_simulado E df st
      /\ pipeline_ler_arquivo E f df st
         = (Ok tt, final_state E (Fraction (1 # 10)) df events st))
  /\ ler_config_contexto (Json (JArr [])) = Ok (JArr [])
  /\ pipeline_ler_arquivo E (Json (JArr [])) df st
     = (Err AttributeError,
        mkState (<[df := map featured_row events]> (heap st)) (stdout st))
  /\ (forall e : error,
        pipeline_ler_arquivo E (Unreadable e) df st = (Err e, st))
  /\ (forall log : option (list string),
        main_ler_arquivo E strptime (Unreadable UnicodeDecodeError) log st
        = (Err UnicodeDecodeError, st)).
Proof.
  split; [|split; [reflexivity | split; [|split; [reflexivity|]]]].
  - intros f Hf.
    assert (Hcfg : (config <~ ler_config_contexto f;
                    dict_get config "contamination" default_contamination)
                   = Ok (JNum (1 # 10))).
    { destruct Hf as [-> | [-> | (m & -> & Hm)]]; try reflexivity.
      simpl. now rewrite Hm. }
    split; [now apply pipelines_agree|].
    apply (pipeline_ler_arquivo_run E df events st Hframe Hne f (JNum (1 # 10)));
      [exact Hcfg | reflexivity].
  - unfold pipeline_ler_arquivo, bind at 1, lift. simpl.
    apply (etapas_nao_dict E df events st Hframe). discriminate.
  - intros log. reflexivity.
Qed.

Lemma C8_config_not_absorbed_witness :
  pipeline_ler_arquivo sample_ensemble (Json (JArr [])) 0%nat sample_state
  = (Err AttributeError,
     mkState (<[0%nat := map featured_row sample_events]> (heap sample_state))
       (stdout sample_state)).
Proof.
  assert (Hframe : heap sample_state !! 0%nat = Some (frame_of_events sample_events))
    by reflexivity.
  assert (Hne : sample_events <> []) by discriminate.
  destruct (C8_config_not_absorbed sample_ensemble sample_strptime 0%nat
              sample_events sample_state Hframe Hne) as (_ & _ & Hrun & _).
  exact Hrun.
Defined.
(** * Further properties of the scripts *)

(** ** The line pattern *)

Lemma append_nil_l (s : string) : ("" ++ s)%string = s.
Proof. reflexivity. Qed.

Lemma append_cons (c : ascii) (a b : string) :
  (String c a ++ b)%string = String c (a ++ b).
Proof. reflexivity. Qed.

Lemma append_nil_r (s : string) : (s ++ "")%string = s.
Proof.
  induction s as [|c s IH]; [reflexivity|]. now rewrite append_cons, IH.
Qed.

Lemma append_assoc (a b c : string) :
  ((a ++ b) ++ c)%string = (a ++ b ++ c)%string.
Proof.
  induction a as [|x a IH]; [reflexivity|]. now rewrite !append_cons, IH.
Qed.

Lemma sem_newline_app (a b : string) :
  sem_newline (a ++ b) = sem_newline a && sem_newline b.
Proof.
  induction a as [|c a IH]; [reflexivity|].
  rewrite append_cons. simpl. rewrite IH. now rewrite andb_assoc.
Qed.

Lemma campo_simples_sem_newline (s : string) :
  campo_simples s = true -> sem_newline s = true.
Proof.
  induction s as [|c s IH]; simpl; [reflexivity|].
  rewrite !andb_true_iff. intros [[_ Hn] Hs]. split; [exact Hn | now apply IH].
Qed.

Lemma lit_app {R} (p : string) (k : string -> option R) (s : string) :
  lit p k (p ++ s) = k s.
Proof.
  induction p as [|c p IH]; [reflexivity|].
  rewrite append_cons. simpl. now rewrite Ascii.eqb_refl.
Qed.

Lemma lit_Some {R} (p : string) (k : string -> option R) (s : string) (r : R) :
  lit p k s = Some r -> exists s', s = (p ++ s')%string /\ k s' = Some r.
Proof.
  revert s. induction p as [|c p IH]; intros s H; simpl in H.
  - now exists s.
  - destruct s as [|c' s]; [discriminate|].
    destruct (Ascii.eqb c c') eqn:E; [|discriminate].
    apply Ascii.eqb_eq in E as <-.
    destruct (IH _ H) as (s' & -> & Hk). now exists s'.
Qed.

(** A lazy group that matches has taken a text without newline, the rest
    of the pattern matches what follows it, and failed after every shorter
    text. *)
Lemma lazy_group_Some {R} (k : string -> option R) (s g : string) (r : R) :
  lazy_group k s = Some (g, r) ->
  exists s', s = (g ++ s')%string /\ k s' = Some r /\ sem_newline g = true
    /\ forall g1 g2, g = (g1 ++ g2)%string -> g2 <> "" ->
         k (g2 ++ s') = None.
Proof.
  revert g. induction s as [|c s IH]; intros g H; simpl in H.
  - destruct (k "") as [r'|] eqn:Ek; [|discriminate].
    inversion H; subst. exists "". repeat split; try assumption.
    intros g1 g2 Hg Hne. destruct g1, g2; try discriminate. congruence.
  - destruct (k (String c s)) as [r'|] eqn:Ek.
    + inversion H; subst. exists (String c s). repeat split; try assumption.
      intros g1 g2 Hg Hne. destruct g1, g2; try discriminate. congruence.
    + destruct (Ascii.eqb c newline) eqn:Ec; [discriminate|].
      destruct (lazy_group k s) as [[g' r']|] eqn:El; [|discriminate].
      inversion H; subst.
      destruct (IH _ eq_refl) as (s' & -> & Hk & Hn & Hmin).
      exists s'. split; [reflexivity|]. split; [exact Hk|]. split.
      * simpl. now rewrite Ec, Hn.
      * intros g1 g2 Hg Hne. destruct g1 as [|c1 g1].
        -- rewrite append_nil_l in Hg. subst g2.
           rewrite append_cons. exact Ek.
        -- rewrite append_cons in Hg. inversion Hg; subst.
           now apply (Hmin g1 g2).
Qed.

(** A lazy group matches as soon as the rest of the pattern matches after
    some text without newline. *)
Lemma lazy_group_complete {R} (k : string -> option R) (g s : string) :
  sem_newline g = true -> is_Some (k s) -> is_Some (lazy_group k (g ++ s)).
Proof.
  intros Hn [r Hk]. induction g as [|c g IH].
  - rewrite append_nil_l. destruct s; simpl; rewrite Hk; eauto.
  - rewrite append_cons. simpl in Hn. apply andb_true_iff in Hn as [Hc Hg].
    simpl. destruct (k (String c (g ++ s))); [eauto|].
    apply negb_true_iff in Hc. rewrite Hc.
    destruct (IH Hg) as [[g' r'] ->]. eauto.
Qed.

Lemma greedy_eos_sem_newline (s : string) :
  sem_newline s = true -> greedy_group eos s = Some (s, tt).
Proof.
  induction s as [|c s IH]; intros H; simpl; [reflexivity|].
  simpl in H. apply andb_true_iff in H as [Hc Hs].
  apply negb_true_iff in Hc. rewrite Hc. now rewrite (IH Hs).
Qed.

Lemma lit_cons {R} (c c' : ascii) (p s : string) (k : string -> option R) :
  lit (String c p) k (String c' s)
  = if Ascii.eqb c c' then lit p k s else None.
Proof. reflexivity. Qed.

Lemma lazy_group_cons {R} (k : string -> option R) (c : ascii) (s : string) :
  lazy_group k (String c s)
  = match k (String c s) with
    | Some r => Some ("", r)
    | None =>
        if Ascii.eqb c newline then None
        else match lazy_group k s with
             | Some (g, r) => Some (String c g, r)
             | None => None
             end
    end.
Proof. reflexivity. Qed.

(** Before a field without bar the separator is not found, so a lazy group
    takes the whole field. *)
Lemma lazy_group_simple {R} (k : string -> option R) (a r : string) (x : R) :
  campo_simples a = true -> k r = Some x ->
  lazy_group (lit sep k) (a ++ sep ++ r) = Some (a, x).
Proof.
  intros Ha Hk. induction a as [|c a IH].
  - rewrite append_nil_l. unfold sep at 2. rewrite append_cons, lazy_group_cons.
    change (String " " ("| " ++ r))%string with (sep ++ r)%string.
    now rewrite lit_app, Hk.
  - simpl in Ha. apply andb_true_iff in Ha as [Hc Ha].
    apply andb_true_iff in Hc as [Hbar Hnl].
    apply negb_true_iff in Hbar, Hnl.
    rewrite append_cons, lazy_group_cons.
    assert (Hlit : lit sep k (String c (a ++ sep ++ r)) = None).
    { unfold sep at 1. rewrite lit_cons.
      destruct (Ascii.eqb " " c); [|reflexivity].
      destruct a as [|c2 a'].
      - rewrite append_nil_l. unfold sep. rewrite append_cons, lit_cons.
        reflexivity.
      - rewrite append_cons, lit_cons. simpl in Ha.
        apply andb_true_iff in Ha as [Hc2 _].
        apply andb_true_iff in Hc2 as [Hbar2 _].
        apply negb_true_iff in Hbar2. rewrite Ascii.eqb_sym in Hbar2.
        now rewrite Hbar2. }
    rewrite Hlit, Hnl. now rewrite (IH Ha).
Qed.

(** Where a text followed by the head of the separator holds a separator,
    the text splits before it. *)
Lemma sep_inside (g pre suf : string) :
  (g ++ " |")%string = (pre ++ sep ++ suf)%string ->
  exists g2, g = (pre ++ g2)%string /\ g2 <> "" /\
             (g2 ++ " |")%string = (sep ++ suf)%string.
Proof.
  revert g. induction pre as [|c pre IH]; intros g H.
  - rewrite append_nil_l in H. exists g. repeat split; [|exact H].
    intros ->. discriminate H.
  - destruct g as [|c' g].
    + exfalso. rewrite append_nil_l, append_cons in H. inversion H as [[Hc Hr]].
      destruct pre as [|c2 pre]; [discriminate Hr|].
      rewrite append_cons in Hr. inversion Hr as [[Hc2 Hr2]].
      destruct pre; discriminate Hr2.
    + rewrite !append_cons in H. inversion H as [[Hc Hr]].
      destruct (IH _ Hr) as (g2 & -> & Hne & Hg2).
      exists g2. now rewrite append_cons.
Qed.

(** The text of a lazy group holds no separator, not even one that would
    end in the separator after it, once the rest of the pattern matches
    after any longer text. *)
Lemma lazy_group_first {R} (k : string -> option R) (g s2 : string) :
  sem_newline g = true ->
  (forall g1 g2, g = (g1 ++ g2)%string -> g2 <> "" ->
     lit sep k (g2 ++ sep ++ s2) = None) ->
  (forall y, sem_newline y = true -> is_Some (k (y ++ s2))) ->
  str_in sep (g ++ " |") = false.
Proof.
  intros Hn Hmin Hext.
  destruct (str_in sep (g ++ " |")) eqn:E; [exfalso | reflexivity].
  apply str_in_split in E as (pre & suf & E).
  destruct (sep_inside _ _ _ E) as (g2 & -> & Hne & Hg2).
  specialize (Hmin pre g2 eq_refl Hne).
  assert (Heq : (g2 ++ sep ++ s2)%string = (sep ++ (suf ++ " ") ++ s2)%string).
  { transitivity ((g2 ++ " |") ++ " " ++ s2)%string.
    - now rewrite append_assoc.
    - now rewrite Hg2, !append_assoc. }
  rewrite Heq, lit_app in Hmin.
  assert (Hy : sem_newline (suf ++ " ") = true).
  { assert (Hall : sem_newline ((pre ++ g2) ++ " |") = true)
      by (rewrite sem_newline_app, Hn; reflexivity).
    rewrite (append_assoc pre), Hg2, !sem_newline_app in Hall.
    rewrite sem_newline_app.
    apply andb_true_iff in Hall as [_ Hall].
    apply andb_true_iff in Hall as [_ Hall]. now rewrite Hall. }
  destruct (Hext _ Hy) as [x Hx]. congruence.
Qed.

Section Pattern.

Variable linha : string.
Hypothesis Hnl : sem_newline linha = true.

(** The pattern matches exactly the lines that hold three separators. *)
Lemma padrao_match_complete (a b c d : string) :
  linha = junta (a, b, c, d) -> is_Some (padrao_match linha).
Proof.
  intros Hl. unfold junta in Hl. rewrite Hl in Hnl.
  rewrite !sem_newline_app in Hnl.
  repeat (apply andb_true_iff in Hnl as [? Hnl]).
  unfold padrao_match.
  assert (is_Some (lazy_group (lit sep (lazy_group (lit sep (lazy_group
            (lit sep (greedy_group eos)))))) linha)) as [[g1 [g2 [g3 [g4 u]]]] ->];
    [|eauto].
  rewrite Hl. apply lazy_group_complete; [assumption|]. rewrite lit_app.
  apply lazy_group_complete; [assumption|]. rewrite lit_app.
  apply lazy_group_complete; [assumption|]. rewrite lit_app.
  rewrite greedy_eos_sem_newline by assumption. eauto.
Qed.

Lemma padrao_match_sound (a b c d : string) :
  padrao_match linha = Some (a, b, c, d) ->
  linha = junta (a, b, c, d)
  /\ str_in sep (a ++ " |") = false
  /\ str_in sep (b ++ " |") = false
  /\ str_in sep (c ++ " |") = false.
Proof.
  unfold padrao_match.
  destruct (lazy_group _ linha) as [[g1 [g2 [g3 [g4 u]]]]|] eqn:E1; [|discriminate].
  intros H. inversion H; subst g1 g2 g3 g4. clear H.
  apply lazy_group_Some in E1 as (s1 & Hl & E1 & Hna & Hmina).
  apply lit_Some in E1 as (s2 & -> & E2).
  apply lazy_group_Some in E2 as (s3 & -> & E2 & Hnb & Hminb).
  apply lit_Some in E2 as (s4 & -> & E3).
  apply lazy_group_Some in E3 as (s5 & -> & E3 & Hnc & Hminc).
  apply lit_Some in E3 as (s6 & -> & E4).
  assert (Hall := Hnl). rewrite Hl, !sem_newline_app in Hall.
  repeat (apply andb_true_iff in Hall as [? Hall]).
  rewrite greedy_eos_sem_newline in E4 by assumption.
  inversion E4; subst s6. clear E4.
  split; [exact Hl|].
  assert (Hk3 : forall y, sem_newline y = true ->
                  is_Some (greedy_group eos (y ++ d))).
  { intros y Hy. rewrite greedy_eos_sem_newline; [eauto|].
    now rewrite sem_newline_app, Hy. }
  assert (Hk2 : forall y, sem_newline y = true ->
                  is_Some (lazy_group (lit sep (greedy_group eos))
                             (y ++ c ++ sep ++ d))).
  { intros y Hy. rewrite <- append_assoc.
    apply lazy_group_complete; [now rewrite sem_newline_app, Hy|].
    rewrite lit_app. apply (Hk3 "" eq_refl). }
  assert (Hk1 : forall y, sem_newline y = true ->
                  is_Some (lazy_group (lit sep (lazy_group
                             (lit sep (greedy_group eos))))
                             (y ++ b ++ sep ++ c ++ sep ++ d))).
  { intros y Hy. rewrite <- append_assoc.
    apply lazy_group_complete; [now rewrite sem_newline_app, Hy|].
    rewrite lit_app. apply (Hk2 "" eq_refl). }
  split; [|split].
  - eapply lazy_group_first; [exact Hna | exact Hmina | exact Hk1].
  - eapply lazy_group_first; [exact Hnb | exact Hminb | exact Hk2].
  - eapply lazy_group_first; [exact Hnc | exact Hminc | exact Hk3].
Qed.

End Pattern.

(** X1. A line without newline that the pattern matches is its four groups
    joined by the separator, so nothing of the line is lost; and the first
    three groups end at the first separator met: none of them, followed by
    the first two characters of the separator, holds a separator.  Later
    separators stay in the message. *)
Theorem padrao_match_fields (linha a b c d : string)
    (Hnl : sem_newline linha = true)
    (H : padrao_match linha = Some (a, b, c, d)) :
  linha = (a ++ " | " ++ b ++ " | " ++ c ++ " | " ++ d)%string
  /\ str_in " | " (a ++ " |") = false
  /\ str_in " | " (b ++ " |") = false
  /\ str_in " | " (c ++ " |") = false.
Proof. exact (padrao_match_sound linha Hnl a b c d H). Qed.

Lemma padrao_match_fields_witness :
  "t | 1.2.3.4 | INFO | a | b"
  = ("t" ++ " | " ++ "1.2.3.4" ++ " | " ++ "INFO" ++ " | " ++ "a | b")%string.
Proof.
  apply (padrao_match_fields "t | 1.2.3.4 | INFO | a | b"
           "t" "1.2.3.4" "INFO" "a | b"); reflexivity.
Defined.

(** X2. A line without newline is matched exactly when it can be written
    as four texts joined by three separators; a line with fewer separators
    is not matched. *)
Theorem padrao_match_iff (linha : string) (Hnl : sem_newline linha = true) :
  is_Some (padrao_match linha)
  <-> exists a b c d : string,
        linha = (a ++ " | " ++ b ++ " | " ++ c ++ " | " ++ d)%string.
Proof.
  split.
  - intros [[[[a b] c] d] H].
    exists a, b, c, d. apply (padrao_match_sound linha Hnl a b c d H).
  - intros (a & b & c & d & H).
    now apply (padrao_match_complete linha Hnl a b c d).
Qed.

Lemma padrao_match_iff_witness :
  is_Some (padrao_match "t | 1.2.3.4 | INFO | ok")
  /\ padrao_match "t | 1.2.3.4 | sem mensagem" = None.
Proof.
  split.
  - apply (padrao_match_iff "t | 1.2.3.4 | INFO | ok" eq_refl).
    now exists "t", "1.2.3.4", "INFO", "ok".
  - reflexivity.
Defined.

Lemma padrao_match_junta (a b c d : string) :
  campo_simples a = true -> campo_simples b = true ->
  campo_simples c = true -> sem_newline d = true ->
  padrao_match (junta (a, b, c, d)) = Some (a, b, c, d).
Proof.
  intros Ha Hb Hc Hd. unfold padrao_match, junta.
  rewrite (lazy_group_simple _ a _ (b, (c, (d, tt))) Ha); [reflexivity|].
  rewrite (lazy_group_simple _ b _ (c, (d, tt)) Hb); [reflexivity|].
  rewrite (lazy_group_simple _ c _ (d, tt) Hc); [reflexivity|].
  now apply greedy_eos_sem_newline.
Qed.

(** X3. Round trip of a log line: when the timestamp, the address and the
    level hold neither a bar nor a newline and the message holds no
    newline, matching the four fields joined by the separator gives the four
    fields back, whatever separators the message holds. *)
Theorem padrao_match_roundtrip (ts ip nivel mensagem : string)
    (Hts : campo_simples ts = true) (Hip : campo_simples ip = true)
    (Hnivel : campo_simples nivel = true)
    (Hmsg : sem_newline mensagem = true) :
  padrao_match (ts ++ " | " ++ ip ++ " | " ++ nivel ++ " | " ++ mensagem)
  = Some (ts, ip, nivel, mensagem).
Proof. now apply padrao_match_junta. Qed.

Lemma padrao_match_roundtrip_witness :
  padrao_match ("2025-03-14 03:15:09" ++ " | " ++ "10.0.0.7" ++ " | " ++ "WARN"
                ++ " | " ++ "Acesso negado | tentativa 3")
  = Some ("2025-03-14 03:15:09", "10.0.0.7", "WARN",
          "Acesso negado | tentativa 3").
Proof.
  apply (padrao_match_roundtrip "2025-03-14 03:15:09" "10.0.0.7" "WARN"
           "Acesso negado | tentativa 3"); reflexivity.
Defined.

(** ** Stripping a line *)

Lemma list_ascii_of_string_app (a b : string) :
  list_ascii_of_string (a ++ b)
  = (list_ascii_of_string a ++ list_ascii_of_string b)%list.
Proof.
  induction a as [|c a IH]; [reflexivity|].
  rewrite append_cons. simpl. now rewrite IH.
Qed.

Lemma plain_facts (c : ascii) :
  plain c = true ->
  (N_of_ascii c < 128)%N /\ ascii_space (N_of_ascii c) = false.
Proof.
  unfold plain. intros H. apply andb_true_iff in H as [H1 H2].
  apply N.ltb_lt in H1. now apply negb_true_iff in H2.
Qed.

Lemma ws_head_plain (c : ascii) (r : list ascii) :
  plain c = true -> ws_head (c :: r) = None.
Proof.
  intros H. apply plain_facts in H as [Hlt Hsp]. unfold ws_head.
  rewrite Hsp.
  destruct r as [|c2 [|c3 r3]]; try reflexivity;
    repeat match goal with
           | |- context [(N_of_ascii c =? ?b)%N] =>
               destruct (N.eqb_spec (N_of_ascii c) b); [lia|]
           end; simpl; rewrite ?andb_false_r; reflexivity.
Qed.

Lemma ws_last_plain (c : ascii) (r : list ascii) :
  plain c = true -> ws_last (c :: r) = None.
Proof.
  intros H. apply plain_facts in H as [Hlt Hsp]. unfold ws_last.
  rewrite Hsp.
  destruct r as [|c2 [|c3 r3]]; try reflexivity;
    repeat match goal with
           | |- context [(N_of_ascii c =? ?b)%N] =>
               destruct (N.eqb_spec (N_of_ascii c) b); [lia|]
           | |- context [(?a <=? N_of_ascii c)%N] =>
               destruct (N.leb_spec a (N_of_ascii c)); [lia|]
           end; simpl; rewrite ?andb_false_r; reflexivity.
Qed.

Lemma drop_ws_None (step : list ascii -> option (list ascii)) (fuel : nat)
    (s : list ascii) :
  step s = None -> drop_ws step fuel s = s.
Proof. intros H. destruct fuel; simpl; [reflexivity | now rewrite H]. Qed.

Lemma drop_ws_last_spaces (w t : list ascii) (c : ascii) (fuel : nat) :
  forallb (fun x => ascii_space (N_of_ascii x)) w = true ->
  plain c = true ->
  (length w <= fuel)%nat ->
  drop_ws ws_last fuel (w ++ c :: t)%list = c :: t.
Proof.
  intros Hw Hc. revert fuel. induction w as [|x w IH]; intros fuel Hf.
  - apply drop_ws_None. now apply ws_last_plain.
  - simpl in Hw. apply andb_true_iff in Hw as [Hx Hw].
    destruct fuel as [|fuel]; [simpl in Hf; lia|].
    simpl. rewrite Hx. apply IH; [exact Hw | simpl in Hf; lia].
Qed.

(** Stripping removes the whitespace after a text that begins and ends
    with plain characters, and nothing else. *)
Lemma strip_spaces (s w : string) :
  inicio_simples s = true -> fim_simples s = true -> so_espacos w = true ->
  strip (s ++ w) = s.
Proof.
  unfold inicio_simples, fim_simples, so_espacos, strip.
  intros Hi Hf Hw. rewrite list_ascii_of_string_app.
  destruct (list_ascii_of_string s) as [|c ls] eqn:Els; [discriminate|].
  rewrite <- app_comm_cons.
  rewrite (drop_ws_None ws_head _ _ (ws_head_plain c _ Hi)).
  rewrite app_comm_cons, rev_app_distr.
  destruct (rev (c :: ls)) as [|c' t] eqn:Er; [discriminate|].
  rewrite drop_ws_last_spaces.
  - rewrite <- Er, rev_involutive, <- Els.
    apply string_of_list_ascii_of_string.
  - rewrite forallb_forall in *. intros x Hx. apply Hw.
    now apply in_rev.
  - exact Hf.
  - rewrite length_rev, length_app. lia.
Qed.

(** ** Ingestion *)

Lemma coleta_campos (linhas : list string) :
  coleta linhas = map linha_dict (campos_linhas linhas).
Proof.
  unfold campos_linhas. induction linhas as [|l ls IH]; [reflexivity|].
  change (omap (fun linha => padrao_match (strip linha)) (l :: ls))
    with (match padrao_match (strip l) with
          | Some y => y :: omap (fun linha => padrao_match (strip linha)) ls
          | None => omap (fun linha => padrao_match (strip linha)) ls
          end).
  simpl coleta. destruct (padrao_match (strip l)); simpl; now rewrite IH.
Qed.

Lemma linha_dict_timestamp (campos : string * string * string * string) :
  linha_dict campos !! "timestamp" = Some (CStr (fst (fst (fst campos)))).
Proof. destruct campos as [[[ts ip] nivel] msg]. reflexivity. Qed.

Lemma linha_dict_event (strptime : string -> option Timestamp)
    (campos : string * string * string * string) (e : Event) :
  evento_de strptime campos = Some e ->
  strptime (fst (fst (fst campos))) = Some (timestamp e)
  /\ <[ "timestamp" := CTime (timestamp e) ]> (linha_dict campos)
     = row_of_event e.
Proof.
  destruct campos as [[[ts ip] nivel] msg]. simpl.
  destruct (strptime ts) as [t|]; [|discriminate].
  intros H. inversion H; subst. split; [reflexivity|].
  unfold row_of_event. simpl. apply insert_insert_eq.
Qed.

Lemma mapM_Err {A B} (f : A -> result B) (e : error) (l : list A) :
  Forall (fun a => (exists b, f a = Ok b) \/ f a = Err e) l ->
  Exists (fun a => f a = Err e) l ->
  mapM f l = Err e.
Proof.
  induction 1 as [|a l Ha _ IH]; intros Hex; [inversion Hex|]. simpl.
  destruct Ha as [[b Hb] | Hb]; rewrite Hb; simpl; [|reflexivity].
  inversion Hex as [? ? Hx | ? ? Hx]; subst; [congruence|].
  now rewrite (IH Hx).
Qed.

Section Ingestion.

Variable strptime : string -> option Timestamp.
Variables (linhas : list string) (st : state).

Lemma ingestao_logs_run (events : list Event) :
  Forall2 (fun campos e => evento_de strptime campos = Some e)
    (campos_linhas linhas) events ->
  events <> [] ->
  ingestao_logs strptime linhas st
  = (Ok (fresh (dom (heap st))),
     mkState (<[fresh (dom (heap st)) := frame_of_events events]> (heap st))
       (stdout st)).
Proof.
  intros Hall Hne. unfold ingestao_logs. rewrite coleta_campos.
  destruct (campos_linhas linhas) as [|c0 cs] eqn:Ec.
  { inversion Hall; subst. congruence. }
  rewrite <- Ec in *. clear Ec c0 cs.
  destruct (map linha_dict (campos_linhas linhas)) as [|r0 rs] eqn:Em.
  { inversion Hall as [Hc He|? ? ? ? ? ? Hc He]; subst; [congruence|].
    rewrite <- Hc in Em. discriminate Em. }
  rewrite <- Em. clear Em r0 rs.
  unfold bind at 1, lift.
  rewrite (get_column_map "timestamp" (fun c => CStr (fst (fst (fst c)))))
    by apply linha_dict_timestamp.
  unfold bind at 1.
  assert (Hts : to_datetime strptime
                  (map (fun c => CStr (fst (fst (fst c)))) (campos_linhas linhas))
                = Ok (map (fun e => CTime (timestamp e)) events)).
  { unfold to_datetime. clear Hne. induction Hall as [|c e cs es Hce _ IH];
      [reflexivity|].
    simpl. destruct (linha_dict_event _ _ _ Hce) as [-> _]. simpl.
    now rewrite IH. }
  rewrite Hts. unfold bind at 1, set_column.
  rewrite !length_map, <- (Forall2_length _ _ _ Hall), Nat.eqb_refl.
  unfold alloc_frame. simpl. do 3 f_equal.
  unfold frame_of_events. clear Hts Hne.
  induction Hall as [|c e cs es Hce _ IH]; [reflexivity|].
  simpl. destruct (linha_dict_event _ _ _ Hce) as [_ ->]. now rewrite IH.
Qed.

Lemma ingestao_logs_vazio :
  campos_linhas linhas = [] ->
  ingestao_logs strptime linhas st = (Err (KeyError "timestamp"), st).
Proof.
  intros H. unfold ingestao_logs. rewrite coleta_campos, H. reflexivity.
Qed.

Lemma ingestao_logs_data_invalida :
  Exists (fun campos => strptime (fst (fst (fst campos))) = None)
    (campos_linhas linhas) ->
  ingestao_logs strptime linhas st = (Err ValueError, st).
Proof.
  intros Hex. unfold ingestao_logs. rewrite coleta_campos.
  destruct (map linha_dict (campos_linhas linhas)) as [|r0 rs] eqn:Em.
  { destruct (campos_linhas linhas); [inversion Hex | discriminate Em]. }
  rewrite <- Em. clear Em r0 rs.
  unfold bind at 1, lift.
  rewrite (get_column_map "timestamp" (fun c => CStr (fst (fst (fst c)))))
    by apply linha_dict_timestamp.
  unfold bind at 1, to_datetime. rewrite (mapM_Err _ ValueError); [reflexivity| |].
  - apply Forall_map, Forall_forall. intros c _. simpl.
    destruct (strptime (fst (fst (fst c)))); eauto.
  - apply Exists_exists in Hex as (c & Hin & Hc).
    apply Exists_exists. exists (CStr (fst (fst (fst c)))). split.
    + apply list_elem_of_fmap. now exists c.
    + now rewrite Hc.
Qed.

End Ingestion.

Lemma length_campos_linhas (linhas : list string) :
  (length (campos_linhas linhas) <= length linhas)%nat.
Proof.
  unfold campos_linhas. induction linhas as [|l ls IH]; [simpl; lia|].
  change (omap (fun linha => padrao_match (strip linha)) (l :: ls))
    with (match padrao_match (strip l) with
          | Some y => y :: omap (fun linha => padrao_match (strip linha)) ls
          | None => omap (fun linha => padrao_match (strip linha)) ls
          end).
  destruct (padrao_match (strip l)); simpl length; lia.
Qed.

Lemma campos_linhas_nil (linhas : list string) :
  Forall (fun linha => padrao_match (strip linha) = None) linhas ->
  campos_linhas linhas = [].
Proof.
  unfold campos_linhas. induction 1 as [|l ls Hl _ IH]; [reflexivity|].
  change (omap (fun linha => padrao_match (strip linha)) (l :: ls))
    with (match padrao_match (strip l) with
          | Some y => y :: omap (fun linha => padrao_match (strip linha)) ls
          | None => omap (fun linha => padrao_match (strip linha)) ls
          end).
  now rewrite Hl.
Qed.

(** X4. When the timestamp of every line that matches is read, and at
    least one line matches, the ingestion returns a new frame that holds one
    event per matching line, in the order of the file, lines that do not
    match being skipped; the frames already in the heap and the console are
    left as they were. *)
Theorem ingestao_logs_events (strptime : string -> option Timestamp)
    (linhas : list string) (st : state) (events : list Event)
    (Hall : Forall2 (fun campos e => evento_de strptime campos = Some e)
              (campos_linhas linhas) events)
    (Hne : events <> []) :
  exists df : nat,
    ingestao_logs strptime linhas st
    = (Ok df, mkState (<[df := frame_of_events events]> (heap st)) (stdout st))
    /\ heap st !! df = None
    /\ length events = length (campos_linhas linhas)
    /\ (length events <= length linhas)%nat.
Proof.
  exists (fresh (dom (heap st))).
  split; [now apply ingestao_logs_run|].
  split; [apply not_elem_of_dom, is_fresh|].
  pose proof (Forall2_length _ _ _ Hall) as Hlen.
  pose proof (length_campos_linhas linhas). split; lia.
Qed.

Lemma ingestao_logs_events_witness :
  exists df : nat,
    ingestao_logs sample_strptime sample_linhas (mkState ∅ [])
    = (Ok df, mkState (<[df := frame_of_events [ev_normal; ev_ataque]]> ∅) []).
Proof.
  assert (Hall : Forall2 (fun campos e => evento_de sample_strptime campos = Some e)
                   (campos_linhas sample_linhas) [ev_normal; ev_ataque]).
  { vm_compute campos_linhas. repeat constructor. }
  assert (Hne : [ev_normal; ev_ataque] <> []) by discriminate.
  destruct (ingestao_logs_events sample_strptime sample_linhas (mkState ∅ [])
              [ev_normal; ev_ataque] Hall Hne) as (df & Hrun & _).
  exists df. exact Hrun.
Defined.

(** X5. A missing log file is absorbed by the main block of the
    file-reading script, which ends quietly; but a log file without any line
    that matches, the empty file in particular, makes it end with [KeyError]
    on the timestamp column: that exception is not the one its [except]
    clause absorbs, no frame is created and nothing is printed.  This is so
    whenever the configuration was read, whatever it holds; an exception of
    that reading comes first and ends the script before the log file is
    opened. *)
Theorem main_ler_arquivo_sem_linhas (E : IsolationEnsemble)
    (strptime : string -> option Timestamp) (f : config_file)
    (linhas : list string) (st : state)
    (H : Forall (fun linha => padrao_match (strip linha) = None) linhas) :
  main_ler_arquivo E strptime f (Some linhas) st
  = (match ler_config_contexto f with
     | Ok _ => Err (KeyError "timestamp")
     | Err e => Err e
     end, st)
  /\ main_ler_arquivo E strptime f (Some []) st
     = (match ler_config_contexto f with
        | Ok _ => Err (KeyError "timestamp")
        | Err e => Err e
        end, st)
  /\ main_ler_arquivo E strptime f None st
     = (match ler_config_contexto f with
        | Ok _ => Ok tt
        | Err e => Err e
        end, st).
Proof.
  unfold main_ler_arquivo, bind, lift.
  destruct (ler_config_contexto f) as [config|e]; [|repeat split; reflexivity].
  rewrite (ingestao_logs_vazio strptime linhas st (campos_linhas_nil _ H)).
  repeat split; reflexivity.
Qed.

Lemma main_ler_arquivo_sem_linhas_witness :
  main_ler_arquivo sample_ensemble sample_strptime NoFile
    (Some ["sem separadores"; "a | b | c"]) sample_state
  = (Err (KeyError "timestamp"), sample_state).
Proof.
  assert (H : Forall (fun linha => padrao_match (strip linha) = None)
                ["sem separadores"; "a | b | c"]) by (repeat constructor).
  destruct (main_ler_arquivo_sem_linhas sample_ensemble sample_strptime NoFile
              ["sem separadores"; "a | b | c"] sample_state H) as [Hrun _].
  exact Hrun.
Defined.

(** X6. One matching line whose timestamp is not in the expected format
    makes the whole ingestion fail with [ValueError]: no frame is returned
    for the other lines, and the heap and the console are unchanged. *)
Theorem ingestao_logs_timestamp_invalido (strptime : string -> option Timestamp)
    (linhas : list string) (st : state)
    (H : Exists (fun campos => strptime (fst (fst (fst campos))) = None)
           (campos_linhas linhas)) :
  ingestao_logs strptime linhas st = (Err ValueError, st).
Proof. now apply ingestao_logs_data_invalida. Qed.

Lemma ingestao_logs_timestamp_invalido_witness :
  ingestao_logs sample_strptime
    (sample_linhas ++ ["ontem | 10.0.0.1 | INFO | Acesso permitido"])
    sample_state
  = (Err ValueError, sample_state).
Proof.
  apply (ingestao_logs_timestamp_invalido sample_strptime
           (sample_linhas ++ ["ontem | 10.0.0.1 | INFO | Acesso permitido"])
           sample_state).
  vm_compute campos_linhas. do 2 apply Exists_cons_tl. apply Exists_cons_hd.
  reflexivity.
Defined.



(** ** Lines that are dropped *)

Lemma conta_barras_cons (c : ascii) (s : string) :
  (conta_barras s <= conta_barras (String c s))%nat.
Proof. simpl. lia. Qed.

Lemma conta_barras_app_ge (x y : string) :
  (conta_barras y <= conta_barras (x ++ y))%nat.
Proof.
  induction x as [|c x IH]; [rewrite append_nil_l; lia|].
  rewrite append_cons. pose proof (conta_barras_cons c (x ++ y)). lia.
Qed.

Lemma conta_barras_sep (y : string) :
  conta_barras (sep ++ y) = S (conta_barras y).
Proof. reflexivity. Qed.

Lemma conta_barras_simples (a y : string) :
  campo_simples a = true -> conta_barras (a ++ y) = conta_barras y.
Proof.
  induction a as [|c a IH]; intros H; [reflexivity|].
  simpl in H. apply andb_true_iff in H as [Hc Ha].
  apply andb_true_iff in Hc as [Hbar _]. apply negb_true_iff in Hbar.
  rewrite append_cons. simpl. rewrite Hbar. simpl. now apply IH.
Qed.

Lemma conta_barras_junta (a b c d : string) :
  (3 <= conta_barras (junta (a, b, c, d)))%nat.
Proof.
  unfold junta.
  pose proof (conta_barras_app_ge a (sep ++ b ++ sep ++ c ++ sep ++ d)) as H1.
  pose proof (conta_barras_app_ge b (sep ++ c ++ sep ++ d)) as H2.
  pose proof (conta_barras_app_ge c (sep ++ d)) as H3.
  rewrite conta_barras_sep in H1, H2, H3. lia.
Qed.

Lemma inicio_simples_app (a b : string) :
  inicio_simples a = true -> inicio_simples (a ++ b) = true.
Proof.
  unfold inicio_simples. rewrite list_ascii_of_string_app.
  destruct (list_ascii_of_string a); [discriminate | trivial].
Qed.

Lemma fim_simples_app (a b : string) :
  fim_simples b = true -> fim_simples (a ++ b) = true.
Proof.
  unfold fim_simples. rewrite list_ascii_of_string_app, rev_app_distr.
  destruct (rev (list_ascii_of_string b)); [discriminate | trivial].
Qed.

Lemma campo_simples_app (a b : string) :
  campo_simples (a ++ b) = campo_simples a && campo_simples b.
Proof.
  induction a as [|c a IH]; [reflexivity|].
  rewrite append_cons. simpl. rewrite IH. now rewrite !andb_assoc.
Qed.

(** X8. A line whose message is empty or blank is lost: stripping removes
    the space that ends the third separator, and what is left, holding two
    separators only, does not match.  So the ingestion adds no record for
    it. *)
Theorem coleta_mensagem_vazia (ts ip nivel w : string)
    (Hts : campo_simples ts = true) (Hin : inicio_simples ts = true)
    (Hip : campo_simples ip = true) (Hnivel : campo_simples nivel = true)
    (Hw : so_espacos w = true) :
  strip (ts ++ " | " ++ ip ++ " | " ++ nivel ++ " | " ++ w)
  = (ts ++ " | " ++ ip ++ " | " ++ nivel ++ " |")%string
  /\ coleta [(ts ++ " | " ++ ip ++ " | " ++ nivel ++ " | " ++ w)%string] = [].
Proof.
  assert (Hstrip : strip (ts ++ " | " ++ ip ++ " | " ++ nivel ++ " | " ++ w)
                   = (ts ++ " | " ++ ip ++ " | " ++ nivel ++ " |")%string).
  { replace (ts ++ " | " ++ ip ++ " | " ++ nivel ++ " | " ++ w)%string
      with ((ts ++ " | " ++ ip ++ " | " ++ nivel ++ " |") ++ " " ++ w)%string
      by (now rewrite !append_assoc).
    apply strip_spaces.
    - now apply inicio_simples_app.
    - rewrite <- !append_assoc. now apply fim_simples_app.
    - unfold so_espacos in *. rewrite list_ascii_of_string_app. simpl.
      exact Hw. }
  split; [exact Hstrip|].
  simpl coleta. rewrite Hstrip.
  destruct (padrao_match (ts ++ " | " ++ ip ++ " | " ++ nivel ++ " |"))
    as [[[[a b] c] d]|] eqn:E; [exfalso | reflexivity].
  assert (Hnl : sem_newline (ts ++ " | " ++ ip ++ " | " ++ nivel ++ " |") = true).
  { rewrite !sem_newline_app, (campo_simples_sem_newline ts),
      (campo_simples_sem_newline ip), (campo_simples_sem_newline nivel)
      by assumption.
    reflexivity. }
  destruct (padrao_match_sound _ Hnl a b c d E) as [Hl _].
  pose proof (conta_barras_junta a b c d) as H3. rewrite <- Hl in H3.
  change (ts ++ " | " ++ ip ++ " | " ++ nivel ++ " |")%string
    with (ts ++ sep ++ ip ++ sep ++ nivel ++ " |")%string in H3.
  rewrite (conta_barras_simples ts), conta_barras_sep in H3 by assumption.
  rewrite (conta_barras_simples ip), conta_barras_sep in H3 by assumption.
  rewrite (conta_barras_simples nivel) in H3 by assumption.
  simpl in H3. lia.
Qed.

Lemma coleta_mensagem_vazia_witness :
  coleta [("2025-03-14 03:15:09" ++ " | " ++ "10.0.0.7" ++ " | " ++ "INFO"
           ++ " | " ++ String newline "")%string] = [].
Proof.
  apply (coleta_mensagem_vazia "2025-03-14 03:15:09" "10.0.0.7" "INFO"
           (String newline "")); reflexivity.
Defined.

(** ** The generator of simulated logs *)

Lemma campo_simples_str_int (z : Z) :
  octeto_valido z = true -> campo_simples (str_int z) = true.
Proof.
  unfold octeto_valido. intros H. apply andb_true_iff in H as [H1 H2].
  apply Z.leb_le in H1. apply Z.ltb_lt in H2.
  assert (Hall : forallb (fun n => campo_simples (str_int (Z.of_nat n)))
                   (seq 0 255) = true) by (vm_compute; reflexivity).
  rewrite forallb_forall in Hall.
  rewrite <- (Z2Nat.id z) by lia. apply Hall, in_seq. lia.
Qed.

Lemma campo_simples_ip_str (a b c d : Z) :
  octeto_valido a = true -> octeto_valido b = true ->
  octeto_valido c = true -> octeto_valido d = true ->
  campo_simples (ip_str (a, b, c, d)) = true.
Proof.
  intros Ha Hb Hc Hd. unfold ip_str.
  rewrite !campo_simples_app, (campo_simples_str_int a),
    (campo_simples_str_int b), (campo_simples_str_int c),
    (campo_simples_str_int d) by assumption.
  reflexivity.
Qed.

Lemma log_line_ingerida (s : Sorteio) :
  sorteio_valido s = true ->
  padrao_match (strip (log_line s ++ String newline ""))
  = Some (campos_sorteio s).
Proof.
  unfold sorteio_valido. destruct s as [ts [[[a b] c] d] n m]. simpl.
  intros H. repeat (apply andb_true_iff in H as [H ?]).
  assert (Hs : strip (log_line (mkSorteio ts (a, b, c, d) n m)
                      ++ String newline "")
               = log_line (mkSorteio ts (a, b, c, d) n m)).
  { apply strip_spaces; [| |reflexivity].
    - unfold log_line. simpl. now apply inicio_simples_app.
    - unfold log_line. simpl. rewrite <- !append_assoc.
      apply fim_simples_app. destruct n, m; reflexivity. }
  rewrite Hs. unfold log_line, campos_sorteio. simpl.
  apply padrao_match_junta.
  - assumption.
  - now apply campo_simples_ip_str.
  - destruct n; reflexivity.
  - destruct n, m; reflexivity.
Qed.

(** X9. Every line that the generator writes is read back by the
    ingestion: none is skipped, the records come in the order of the
    generation, and each holds the timestamp text, the address, the level
    and the message the line was written from. *)
Theorem simula_logs_ingeridos (sorteios : list Sorteio)
    (H : Forall (fun s => sorteio_valido s = true) sorteios) :
  coleta (arquivo_simulado (simula_logs sorteios))
  = map (fun s => linha_dict (campos_sorteio s)) sorteios
  /\ length (coleta (arquivo_simulado (simula_logs sorteios)))
     = length sorteios.
Proof.
  assert (Hc : coleta (arquivo_simulado (simula_logs sorteios))
               = map (fun s => linha_dict (campos_sorteio s)) sorteios).
  { unfold arquivo_simulado, simula_logs.
    induction H as [|s ss Hs _ IH]; [reflexivity|].
    simpl. rewrite (log_line_ingerida s Hs). now rewrite IH. }
  split; [exact Hc|]. now rewrite Hc, length_map.
Qed.

Lemma simula_logs_ingeridos_witness :
  length (coleta (arquivo_simulado (simula_logs
            [mkSorteio "2025-03-14 03:15:09" (10, 1, 254, 7) ERROR AcessoNegado;
             mkSorteio "2025-03-14 03:20:00" (192, 168, 1, 20) INFO
               TransacaoRealizada])))
  = 2%nat.
Proof.
  apply (simula_logs_ingeridos
           [mkSorteio "2025-03-14 03:15:09" (10, 1, 254, 7) ERROR AcessoNegado;
            mkSorteio "2025-03-14 03:20:00" (192, 168, 1, 20) INFO
              TransacaoRealizada]).
  repeat constructor.
Defined.

(** X10. In the simulated logs the attack flag follows the level: the
    extractor's test gives 1 on the message of an ERROR line and 0 on the
    message of any other line, so a line that is not an ERROR is classified
    Normal whatever its anomaly label. *)
Theorem simulado_flag_nivel (n : Nivel) (m : Mensagem) :
  lambda_ataque (mensagem_final n m)
  = match n with ERROR => 1 | _ => 0 end
  /\ forall (r : row) (a : cell),
       n <> ERROR ->
       r !! "anomaly" = Some a ->
       r !! "possivel_ataque"
         = Some (CInt (lambda_ataque (mensagem_final n m))) ->
       classifica_eventos r = Ok Normal.
Proof.
  assert (Hflag : lambda_ataque (mensagem_final n m)
                  = match n with ERROR => 1 | _ => 0 end).
  { destruct n, m; vm_compute; reflexivity. }
  split; [exact Hflag|].
  intros r a Hn Ha Hp. rewrite (classifica_eventos_cells r _ _ Ha Hp).
  rewrite Hflag. destruct n; [| |contradiction];
    simpl; now rewrite !andb_false_r.
Qed.

Lemma simulado_flag_nivel_witness :
  classifica_eventos
    {[ "anomaly" := CInt (-1);
       "possivel_ataque" := CInt (lambda_ataque (mensagem_final WARN AcessoNegado)) ]}
  = Ok Normal.
Proof.
  destruct (simulado_flag_nivel WARN AcessoNegado) as [_ H].
  apply (H _ (CInt (-1))); [discriminate | reflexivity | reflexivity].
Defined.

(** ** Missing columns *)

(** X11. What the classifier does on a row that lacks a column.  Without
    [anomaly] it raises [KeyError].  Without [possivel_ataque] it raises
    [KeyError] only when the anomaly value equals -1 or 1: for any other
    anomaly value the attack column is never read and the row is Normal. *)
Theorem classifica_eventos_colunas (r : row) :
  (r !! "anomaly" = None -> classifica_eventos r = Err (KeyError "anomaly"))
  /\ (forall a : cell,
        r !! "anomaly" = Some a -> r !! "possivel_ataque" = None ->
        classifica_eventos r
        = if cell_eq_int a (-1) || cell_eq_int a 1
          then Err (KeyError "possivel_ataque")
          else Ok Normal).
Proof.
  unfold classifica_eventos, getitem. split.
  - intros ->. reflexivity.
  - intros a -> ->. simpl.
    destruct (cell_eq_int a (-1)); simpl; [reflexivity|].
    destruct (cell_eq_int a 1); reflexivity.
Qed.

Lemma classifica_eventos_colunas_witness :
  classifica_eventos {[ "anomaly" := CInt 0 ]} = Ok Normal
  /\ classifica_eventos {[ "anomaly" := CInt 1 ]}
     = Err (KeyError "possivel_ataque").
Proof.
  destruct (classifica_eventos_colunas {[ "anomaly" := CInt 0 ]}) as [_ H0].
  destruct (classifica_eventos_colunas {[ "anomaly" := CInt 1 ]}) as [_ H1].
  split; [apply (H0 (CInt 0)) | apply (H1 (CInt 1))]; reflexivity.
Defined.

Lemma get_column_Forall (k : string) (g : row -> cell) (d : DataFrame) :
  Forall (fun r : row => r !! k = Some (g r)) d ->
  get_column k d = Ok (map g d).
Proof.
  unfold get_column. induction 1 as [|r d Hr _ IH]; [reflexivity|].
  simpl. rewrite (getitem_Some _ _ _ Hr). simpl. now rewrite IH.
Qed.

Lemma get_column_missing (k : string) (r0 : row) (d : DataFrame) :
  r0 !! k = None -> get_column k (r0 :: d) = Err (KeyError k).
Proof. intros H. unfold get_column, getitem. simpl. now rewrite H. Qed.

Lemma assign_column_rows (df : nat) (k : string) (g : row -> cell)
    (d : DataFrame) (st : state) :
  heap st !! df = Some d ->
  assign_column df k (map g d) st
  = (Ok tt, mkState (<[df := map (fun r => <[k := g r]> r) d]> (heap st))
                    (stdout st)).
Proof.
  intros H. rewrite (assign_column_run _ _ _ _ _ H) by now rewrite length_map.
  do 3 f_equal. clear H.
  induction d as [|r d IH]; simpl; [reflexivity | now rewrite IH].
Qed.

Lemma com_flag_insert (r : row) (m : string) :
  r !! "mensagem" = Some (CStr m) ->
  com_flag r = <[ "possivel_ataque" := CInt (lambda_ataque m) ]> r.
Proof. intros H. unfold com_flag. now rewrite H. Qed.

Lemma com_hora_insert (r : row) (t : Timestamp) :
  r !! "timestamp" = Some (CTime t) ->
  com_hora r = <[ "hora" := CInt (ts_hour t) ]> r.
Proof. intros H. unfold com_hora. now rewrite H. Qed.

Lemma flags_rows (d : DataFrame) :
  Forall tem_mensagem d ->
  exists flags : list cell,
    (msgs <~ get_column "mensagem" d; mapM possivel_ataque_of msgs) = Ok flags
    /\ length flags = length d
    /\ zip_with (fun (r : row) v => <[ "possivel_ataque" := v ]> r) d flags
       = map com_flag d.
Proof.
  unfold get_column. induction 1 as [|r d [m Hm] _ (flags & Hrun & Hlen & Hzip)].
  - exists []. repeat split; reflexivity.
  - exists (CInt (lambda_ataque m) :: flags). simpl.
    rewrite (getitem_Some _ _ _ Hm). simpl.
    destruct (mapM (fun r0 : row => getitem r0 "mensagem") d) as [msgs|e];
      simpl in *; [|discriminate].
    rewrite Hrun. simpl. repeat split.
    + now rewrite Hlen.
    + now rewrite Hzip, (com_flag_insert r m Hm).
Qed.

Lemma horas_rows (d : DataFrame) :
  Forall tem_timestamp d ->
  exists horas : list cell,
    (tss <~ get_column "timestamp" d; mapM dt_hour tss) = Ok horas
    /\ length horas = length d
    /\ zip_with (fun (r : row) v => <[ "hora" := v ]> r) d horas
       = map com_hora d.
Proof.
  unfold get_column. induction 1 as [|r d [t Ht] _ (horas & Hrun & Hlen & Hzip)].
  - exists []. repeat split; reflexivity.
  - exists (CInt (ts_hour t) :: horas). simpl.
    rewrite (getitem_Some _ _ _ Ht). simpl.
    destruct (mapM (fun r0 : row => getitem r0 "timestamp") d) as [tss|e];
      simpl in *; [|discriminate].
    rewrite Hrun. simpl. repeat split.
    + now rewrite Hlen.
    + now rewrite Hzip, (com_hora_insert r t Ht).
Qed.

Lemma com_flag_timestamp (r : row) :
  com_flag r !! "timestamp" = r !! "timestamp".
Proof.
  unfold com_flag. destruct (r !! "mensagem") as [[m| | |]|]; try reflexivity.
  now rewrite lookup_insert_ne.
Qed.

Section Extraction.

Variables (df : nat) (st : state) (d : DataFrame).
Hypothesis Hframe : heap st !! df = Some d.

Lemma extrai_features_rows :
  Forall tem_mensagem d -> Forall tem_timestamp d ->
  extrai_features df st
  = (Ok df, mkState (<[df := map com_hora (map com_flag d)]> (heap st))
              (stdout st)).
Proof.
  intros Hm Ht. destruct (flags_rows d Hm) as (flags & Hrun & Hlen & Hzip).
  assert (Ht' : Forall tem_timestamp (map com_flag d)).
  { apply Forall_map. eapply Forall_impl; [exact Ht|].
    intros r [t Hr]. exists t. simpl. now rewrite com_flag_timestamp. }
  destruct (horas_rows _ Ht') as (horas & Hrun' & Hlen' & Hzip').
  unfold extrai_features, bind at 1. rewrite (read_frame_run _ _ _ Hframe).
  unfold bind at 1, lift. rewrite Hrun. unfold bind at 1.
  rewrite (assign_column_run _ _ _ _ _ Hframe Hlen), Hzip.
  unfold bind at 1. erewrite read_frame_run by apply lookup_insert_eq.
  unfold bind at 1. rewrite Hrun'. unfold bind at 1.
  erewrite assign_column_run; [| apply lookup_insert_eq | exact Hlen'].
  rewrite Hzip'. unfold ret. simpl. now rewrite insert_insert_eq.
Qed.

Lemma extrai_features_sem_mensagem (r0 : row) (d' : DataFrame) :
  d = r0 :: d' -> r0 !! "mensagem" = None ->
  extrai_features df st = (Err (KeyError "mensagem"), st).
Proof.
  intros Hd Hr. unfold extrai_features, bind at 1.
  rewrite (read_frame_run _ _ _ Hframe). unfold bind at 1, lift.
  now rewrite Hd, (get_column_missing "mensagem" r0 d' Hr).
Qed.

Lemma extrai_features_sem_timestamp (r0 : row) (d' : DataFrame) :
  d = r0 :: d' -> Forall tem_mensagem d -> r0 !! "timestamp" = None ->
  extrai_features df st
  = (Err (KeyError "timestamp"),
     mkState (<[df := map com_flag d]> (heap st)) (stdout st)).
Proof.
  intros Hd Hm Hr. destruct (flags_rows d Hm) as (flags & Hrun & Hlen & Hzip).
  unfold extrai_features, bind at 1. rewrite (read_frame_run _ _ _ Hframe).
  unfold bind at 1, lift. rewrite Hrun. unfold bind at 1.
  rewrite (assign_column_run _ _ _ _ _ Hframe Hlen), Hzip.
  unfold bind at 1. erewrite read_frame_run by apply lookup_insert_eq.
  unfold bind at 1. rewrite Hd. simpl map.
  rewrite (get_column_missing "timestamp" (com_flag r0) (map com_flag d'));
    [reflexivity|].
  now rewrite com_flag_timestamp.
Qed.

End Extraction.

Lemma com_features_fixed (r : row) :
  tem_mensagem r -> tem_timestamp r ->
  com_hora (com_flag (com_hora (com_flag r))) = com_hora (com_flag r).
Proof.
  intros [m Hm] [t Ht].
  rewrite (com_flag_insert r m Hm).
  rewrite (com_hora_insert (<[ "possivel_ataque" := _ ]> r) t)
    by (now rewrite lookup_insert_ne).
  rewrite (com_flag_insert _ m)
    by (now rewrite !lookup_insert_ne).
  rewrite (com_hora_insert _ t) by (now rewrite !lookup_insert_ne).
  rewrite (insert_id (<[ "hora" := _ ]> _) "possivel_ataque")
    by (rewrite lookup_insert_ne by discriminate; apply lookup_insert_eq).
  apply insert_insert_eq.
Qed.

(** X12. Extracting the features twice is the same as extracting them once:
    on a frame whose rows hold a text message and a datetime, the second
    call recomputes the same two columns and leaves the frame, the heap and
    the console as the first call left them. *)
Theorem extrai_features_idempotente (df : nat) (st : state) (d : DataFrame)
    (Hframe : heap st !! df = Some d)
    (Hm : Forall tem_mensagem d) (Ht : Forall tem_timestamp d) :
  (_ <- extrai_features df ;; extrai_features df) st = extrai_features df st.
Proof.
  unfold bind. rewrite (extrai_features_rows df st d Hframe Hm Ht).
  erewrite extrai_features_rows; [| apply lookup_insert_eq | |].
  - simpl. rewrite insert_insert_eq. do 3 f_equal.
    rewrite !map_map. apply map_ext_in. intros r Hr.
    rewrite Forall_forall in Hm, Ht. apply list_elem_of_In in Hr.
    now apply com_features_fixed; [apply Hm | apply Ht].
  - rewrite map_map. apply Forall_map. rewrite Forall_forall in *.
    intros r Hr. destruct (Hm r Hr) as [m Hmr], (Ht r Hr) as [t Htr].
    exists m. simpl. rewrite (com_flag_insert r m Hmr).
    rewrite (com_hora_insert _ t) by (now rewrite lookup_insert_ne).
    now rewrite !lookup_insert_ne.
  - rewrite map_map. apply Forall_map. rewrite Forall_forall in *.
    intros r Hr. destruct (Hm r Hr) as [m Hmr], (Ht r Hr) as [t Htr].
    exists t. simpl. rewrite (com_flag_insert r m Hmr).
    rewrite (com_hora_insert _ t) by (now rewrite lookup_insert_ne).
    now rewrite !lookup_insert_ne.
Qed.

Lemma extrai_features_idempotente_witness :
  (_ <- extrai_features 0%nat ;; extrai_features 0%nat) sample_state
  = extrai_features 0%nat sample_state.
Proof.
  apply (extrai_features_idempotente 0%nat sample_state
           (frame_of_events sample_events)).
  - reflexivity.
  - repeat constructor; eexists; reflexivity.
  - repeat constructor; eexists; reflexivity.
Defined.

(** X13. The extractor is not atomic.  On a frame without a message column
    it raises [KeyError] and changes nothing; on a frame that has text
    messages but no timestamp column it raises [KeyError] after the flag
    column has been added, so the caller's frame keeps that column. *)
Theorem extrai_features_coluna_ausente (df : nat) (st : state)
    (r0 : row) (d' : DataFrame)
    (Hframe : heap st !! df = Some (r0 :: d')) :
  (r0 !! "mensagem" = None ->
     extrai_features df st = (Err (KeyError "mensagem"), st))
  /\ (Forall tem_mensagem (r0 :: d') -> r0 !! "timestamp" = None ->
        extrai_features df st
        = (Err (KeyError "timestamp"),
           mkState (<[df := map com_flag (r0 :: d')]> (heap st)) (stdout st))).
Proof.
  split.
  - intros Hr. now apply (extrai_features_sem_mensagem df st _ Hframe r0 d').
  - intros Hm Hr.
    now apply (extrai_features_sem_timestamp df st _ Hframe r0 d').
Qed.

Lemma extrai_features_coluna_ausente_witness :
  extrai_features 0%nat (mkState {[ 0%nat := sample_sem_timestamp ]} [])
  = (Err (KeyError "timestamp"),
     mkState (<[0%nat := map com_flag sample_sem_timestamp]>
                {[ 0%nat := sample_sem_timestamp ]}) []).
Proof.
  assert (Hframe : heap (mkState {[ 0%nat := sample_sem_timestamp ]} []) !! 0%nat
                   = Some sample_sem_timestamp) by reflexivity.
  destruct (extrai_features_coluna_ausente 0%nat _ _ _ Hframe) as [_ H].
  apply H; [repeat constructor; eexists; reflexivity | reflexivity].
Defined.

(** X14. A configuration file that decodes to a JSON value other than an
    object (a list, a number, a text, null) is returned as the
    configuration, and the detection then raises [AttributeError] when it
    asks it for the contamination.  This happens after the features were
    extracted: the frame keeps its two feature columns, no score, label or
    tier is added and nothing is printed. *)
Theorem pipeline_config_nao_dict (E : IsolationEnsemble) (j : json)
    (df : nat) (events : list Event) (st : state)
    (Hj : forall m, j <> JObj m)
    (Hframe : heap st !! df = Some (frame_of_events events)) :
  pipeline_ler_arquivo E (Json j) df st
  = (Err AttributeError,
     mkState (<[df := map featured_row events]> (heap st)) (stdout st)).
Proof.
  unfold pipeline_ler_arquivo, bind at 1, lift. simpl.
  now apply (etapas_nao_dict E df events st Hframe).
Qed.

Lemma pipeline_config_nao_dict_witness :
  pipeline_ler_arquivo sample_ensemble (Json (JArr [JNum (1 # 10)])) 0%nat
    sample_state
  = (Err AttributeError,
     mkState (<[0%nat := map featured_row sample_events]> (heap sample_state))
       (stdout sample_state)).
Proof.
  apply (pipeline_config_nao_dict sample_ensemble (JArr [JNum (1 # 10)]) 0%nat
           sample_events sample_state); [discriminate | reflexivity].
Defined.

(** ** Events without attack signal *)

Lemma select_rows_none {A} (f : A -> bool) (d : DataFrame) (l : list A) :
  (forall a, f a = false) -> select_rows d (map f l) = [].
Proof.
  intros Hf. revert l. induction d as [|r d IH]; intros [|a l]; simpl; auto.
  now rewrite Hf.
Qed.

(** X15. When no row of the frame carries the attack signal (its
    [possivel_ataque] cell does not equal 1), the classification marks every
    row Normal whatever its anomaly value, and the alert generation that
    follows prints nothing. *)
Theorem sem_sinal_sem_alerta (df : nat) (st : state) (d : DataFrame)
    (Hframe : heap st !! df = Some d)
    (Hsinal : Forall (fun r : row =>
                        exists a p, r !! "anomaly" = Some a
                                    /\ r !! "possivel_ataque" = Some p
                                    /\ cell_eq_int p 1 = false) d) :
  (_ <- classifica df ;; gerar_alertas df) st
  = (Ok tt,
     mkState (<[df := map (fun r => <[ "classificacao" := CStr Normal ]> r) d]>
                (heap st))
       (stdout st)).
Proof.
  assert (Hcl : mapM classifica_eventos d = Ok (map (fun _ => Normal) d)).
  { clear Hframe.
    induction Hsinal as [|r d' (a & p & Ha & Hp & Hne) _ IH]; [reflexivity|].
    simpl. rewrite (classifica_eventos_cells r a p Ha Hp), Hne.
    rewrite !andb_false_r. simpl. now rewrite IH. }
  unfold bind at 1, classifica, bind at 1.
  rewrite (read_frame_run _ _ _ Hframe). unfold bind at 1, lift.
  rewrite Hcl, map_map.
  rewrite (assign_column_rows df "classificacao" (fun _ => CStr Normal) d st Hframe).
  unfold gerar_alertas, bind at 1.
  erewrite read_frame_run by apply lookup_insert_eq.
  unfold bind at 1.
  rewrite (get_column_Forall "classificacao" (fun _ => CStr Normal))
    by (apply Forall_map, Forall_forall; intros r _; apply lookup_insert_eq).
  unfold lift. lazy beta iota. rewrite !map_map.
  rewrite select_rows_none by (intros r; reflexivity).
  simpl. unfold ret. now destruct st.
Qed.

Lemma sem_sinal_sem_alerta_witness :
  (_ <- classifica 0%nat ;; gerar_alertas 0%nat)
    (mkState {[ 0%nat := sample_sem_sinal ]} [])
  = (Ok tt,
     mkState (<[0%nat := map (fun r => <[ "classificacao" := CStr Normal ]> r)
                           sample_sem_sinal]> {[ 0%nat := sample_sem_sinal ]})
       []).
Proof.
  assert (Hframe : heap (mkState {[ 0%nat := sample_sem_sinal ]} []) !! 0%nat
                   = Some sample_sem_sinal) by reflexivity.
  assert (Hsinal : Forall (fun r : row =>
                             exists a p, r !! "anomaly" = Some a
                                         /\ r !! "possivel_ataque" = Some p
                                         /\ cell_eq_int p 1 = false)
                     sample_sem_sinal)
    by (repeat constructor; do 2 eexists; repeat split; reflexivity).
  exact (sem_sinal_sem_alerta 0%nat _ sample_sem_sinal Hframe Hsinal).
Defined.

(** ** The simulated script from end to end *)

Lemma campos_linhas_simulado (sorteios : list Sorteio) :
  Forall (fun s => sorteio_valido s = true) sorteios ->
  campos_linhas (arquivo_simulado (simula_logs sorteios))
  = map campos_sorteio sorteios.
Proof.
  unfold campos_linhas, arquivo_simulado, simula_logs.
  induction 1 as [|s ss Hs _ IH]; [reflexivity|].
  simpl map.
  change (omap (fun linha => padrao_match (strip linha))
            ((log_line s ++ String newline "")%string
             :: map (fun linha => (linha ++ String newline "")%string)
                  (map log_line ss)))
    with (match padrao_match (strip (log_line s ++ String newline "")) with
          | Some y => y :: omap (fun linha => padrao_match (strip linha))
                            (map (fun linha => (linha ++ String newline "")%string)
                               (map log_line ss))
          | None => omap (fun linha => padrao_match (strip linha))
                      (map (fun linha => (linha ++ String newline "")%string)
                         (map log_line ss))
          end).
  now rewrite (log_line_ingerida s Hs), IH.
Qed.

Lemma evento_simulado_nivel (strptime : string -> option Timestamp)
    (s : Sorteio) (e : Event) :
  evento_de strptime (campos_sorteio s) = Some e ->
  lambda_ataque (message e) = 1 -> level e = "ERROR".
Proof.
  unfold evento_de, campos_sorteio.
  destruct (strptime (s_ts_str s)) as [t|]; [|discriminate].
  intros H. inversion H; subst. simpl.
  destruct (s_nivel s), (s_mensagem s); vm_compute; congruence.
Qed.

Lemma tier_critico (lab flag : Z) : tier lab flag = Critico -> flag = 1.
Proof.
  unfold tier. destruct (lab =? -1)%Z; simpl.
  - destruct (flag =? 1)%Z eqn:E; [intros _; now apply Z.eqb_eq in E|].
    destruct (lab =? 1)%Z; simpl; discriminate.
  - destruct (lab =? 1)%Z; simpl; [|discriminate].
    destruct (flag =? 1)%Z; discriminate.
Qed.

(** X16. The simulated script from the draws of its generator to the
    alerts: with at least one draw, the timestamps of the draws being read
    back, it ends without exception; every generated line has its
    classified record in the new frame, in the order of the generation, and
    every alert printed is the alert of an event whose level is ERROR. *)
Theorem main_simulado_run (E : IsolationEnsemble)
    (strptime : string -> option Timestamp) (sorteios : list Sorteio)
    (st : state) (events : list Event)
    (Hval : Forall (fun s => sorteio_valido s = true) sorteios)
    (Hall : Forall2 (fun s e => evento_de strptime (campos_sorteio s) = Some e)
              sorteios events)
    (Hlen : (1 <= length sorteios)%nat) :
  exists df : nat,
    heap st !! df = None
    /\ main_simulado E strptime sorteios st
       = (Ok tt, final_state E (Fraction (1 # 10)) df events st)
    /\ length events = length sorteios
    /\ forall a : line,
         a ∈ map (fun ce => alert_of (event ce))
               (filter (fun ce => severity ce = Critico)
                  (classified_events E (Fraction (1 # 10)) events)) ->
         exists e : Event, e ∈ events /\ a = alert_of e /\ level e = "ERROR".
Proof.
  pose proof (Forall2_length _ _ _ Hall) as Hl.
  exists (fresh (dom (heap st))).
  split; [apply not_elem_of_dom, is_fresh|]. split; [|split; [lia|]].
  - assert (Hne : events <> [])
      by (destruct events; [simpl in Hl; lia | discriminate]).
    assert (Hall' : Forall2 (fun campos e => evento_de strptime campos = Some e)
                      (campos_linhas (arquivo_simulado (simula_logs sorteios)))
                      events).
    { rewrite (campos_linhas_simulado sorteios Hval).
      apply Forall2_fmap_l. exact Hall. }
    unfold main_simulado, bind.
    rewrite (ingestao_logs_run strptime _ st events Hall' Hne).
    erewrite pipeline_simulado_run; [| apply lookup_insert_eq | exact Hne].
    unfold final_state. simpl. now rewrite insert_insert_eq.
  - intros a Ha. apply list_elem_of_fmap in Ha as (ce & -> & Hce).
    apply list_elem_of_filter in Hce as [Hsev Hin].
    unfold classified_events in Hin.
    apply list_elem_of_fmap in Hin as (e & -> & He).
    exists e. simpl in *. split; [exact He|]. split; [reflexivity|].
    apply tier_critico in Hsev.
    assert (Hs : exists s, evento_de strptime (campos_sorteio s) = Some e).
    { clear - Hall He. induction Hall as [|s e' ss es Hse _ IH].
      - inversion He.
      - apply elem_of_cons in He as [Heq | He].
        + subst. now exists s.
        + now apply IH. }
    destruct Hs as [s Hs]. now apply (evento_simulado_nivel strptime s e).
Qed.

Lemma main_simulado_run_witness :
  exists df : nat,
    main_simulado sample_ensemble sample_strptime
      [mkSorteio "2025-03-14 09:00:00" (10, 1, 1, 9) INFO AcessoPermitido;
       mkSorteio "2025-03-14 03:15:09" (10, 1, 1, 8) ERROR AcessoNegado]
      (mkState ∅ [])
    = (Ok tt,
       final_state sample_ensemble (Fraction (1 # 10)) df
         [mkEvent (mkTimestamp 2025 3 14 9 0 0) "10.1.1.9" "INFO"
            "Acesso permitido";
          mkEvent ts_exemplo "10.1.1.8" "ERROR"
            "Acesso negado - Possível ataque detectado"]
         (mkState ∅ [])).
Proof.
  assert (Hval : Forall (fun s => sorteio_valido s = true)
                   [mkSorteio "2025-03-14 09:00:00" (10, 1, 1, 9) INFO
                      AcessoPermitido;
                    mkSorteio "2025-03-14 03:15:09" (10, 1, 1, 8) ERROR
                      AcessoNegado])
    by (repeat constructor).
  assert (Hall : Forall2
                   (fun s e => evento_de sample_strptime (campos_sorteio s) = Some e)
                   [mkSorteio "2025-03-14 09:00:00" (10, 1, 1, 9) INFO
                      AcessoPermitido;
                    mkSorteio "2025-03-14 03:15:09" (10, 1, 1, 8) ERROR
                      AcessoNegado]
                   [mkEvent (mkTimestamp 2025 3 14 9 0 0) "10.1.1.9" "INFO"
                      "Acesso permitido";
                    mkEvent ts_exemplo "10.1.1.8" "ERROR"
                      "Acesso negado - Possível ataque detectado"])
    by (repeat constructor).
  destruct (main_simulado_run sample_ensemble sample_strptime _ (mkState ∅ []) _
              Hval Hall) as (df & _ & Hrun & _); [simpl; lia|].
  exists df. exact Hrun.
Defined.
